(** * Gophermart: a shallow embedding of the ledger store and the accrual agent

    Sources:
    - [internal/storage/migrations/00001_init.sql] (the schema and the
      [DBStorage] methods of package [storage]);
    - [internal/agent/accrual.go] (the accrual agent: [fetchOrderStatus],
      [worker], [processOrders], [StartAgent], [StopAgent]);
    - [internal/model/model.go] (statuses and records);
    - [internal/handlers] (the methods of [UserHandler]);
    - [internal/config/config.go] ([validateConf]).

    Money columns are [FLOAT] in the schema and [float64] in Go; they are
    modelled as exact integers [Z] (rounding is not modelled, so no property
    below rests on regrouping a sum of several amounts).  Identifiers
    ([SERIAL], [int]) are [Z].  A Go string of runes is a [list Z] of code
    points where case mapping matters, a [string] elsewhere. *)

From Stdlib Require Import ZArith List String Ascii Bool Lia Permutation.
Import ListNotations.
Open Scope Z_scope.

(* ------------------------------------------------------------------ *)
(** ** package model *)

Module Model.

(** Internal order statuses ([OrderStatus]): [OrderNew], [OrderProcessing],
    [OrderInvalid], [OrderProcessed]. *)
Inductive OrderStatus := OrderNew | OrderProcessing | OrderInvalid | OrderProcessed.

(** External accrual statuses ([OrderAccrualStatus]) are free strings in
    Go: the JSON decoder accepts any value. *)
Definition OrderAccrualStatus := string.
Definition OrderAccRegistered : OrderAccrualStatus := "REGISTERED"%string.
Definition OrderAccProcessing : OrderAccrualStatus := "PROCESSING"%string.
Definition OrderAccInvalid : OrderAccrualStatus := "INVALID"%string.
Definition OrderAccProcessed : OrderAccrualStatus := "PROCESSED"%string.

(** [model.Order], without its timestamps. *)
Record Order := mkOrder {
  ID : Z;
  UserID : Z;
  Number : string;
  Status : OrderStatus
}.

(** [model.AccrualResultRes]: the body of the accrual service answer. *)
Record AccrualResultRes := mkAccrualResultRes {
  res_Order : string;
  res_Status : OrderAccrualStatus;
  res_Accrual : Z
}.

End Model.

Import Model.

(* ------------------------------------------------------------------ *)
(** ** package storage: tables and [DBStorage] methods *)

Module Storage.

(** Rows of the four tables of the migration. *)
Record user_row := mkUser { u_id : Z; u_login : list Z; u_password_hash : string }.

Record order_row := mkOrderRow {
  o_id : Z; o_user_id : Z; o_number : string;
  o_status : OrderStatus; o_accrual : option Z  (* [accrual FLOAT], nullable *)
}.

Record withdrawal_row := mkWithdrawal {
  w_id : Z; w_user_id : Z; w_number : string; w_sum : Z
}.

Record balance_row := mkBalance { b_user_id : Z; b_current : Z; b_withdrawn : Z }.

(** The database: the tables and the three [SERIAL] sequences.  A sequence
    value is consumed by an [INSERT] even when the insert then fails. *)
Record DB := mkDB {
  users : list user_row;
  orders : list order_row;
  withdrawals : list withdrawal_row;
  balances : list balance_row;
  users_seq : Z;
  orders_seq : Z;
  withdrawals_seq : Z
}.

Definition empty_db : DB := mkDB [] [] [] [] 1 1 1.

(** The error values of package [storage]; [ErrDB] stands for every
    wrapped [fmt.Errorf] error (driver, scan, foreign key, hashing). *)
Inductive StoreErr :=
  | ErrLoginTaken | ErrNoUser | ErrOrderNumUsed | ErrOrderNumCreated
  | ErrInsufficientFunds | ErrDB.

Definition err_eqb (a b : StoreErr) : bool :=
  match a, b with
  | ErrLoginTaken, ErrLoginTaken | ErrNoUser, ErrNoUser
  | ErrOrderNumUsed, ErrOrderNumUsed | ErrOrderNumCreated, ErrOrderNumCreated
  | ErrInsufficientFunds, ErrInsufficientFunds | ErrDB, ErrDB => true
  | _, _ => false
  end.

(** Equality of two rune sequences ([=] on Go strings). *)
Fixpoint runes_eqb (a b : list Z) : bool :=
  match a, b with
  | [], [] => true
  | x :: a', y :: b' => (x =? y) && runes_eqb a' b'
  | _, _ => false
  end.

(** Table lookups. *)
Definition find_user_by_login (db : DB) (login : list Z) : option user_row :=
  find (fun u => runes_eqb (u_login u) login) (users db).

Definition find_user_by_id (db : DB) (uid : Z) : option user_row :=
  find (fun u => u_id u =? uid) (users db).

Definition find_order_by_num (db : DB) (num : string) : option order_row :=
  find (fun o => String.eqb (o_number o) num) (orders db).

Definition find_order_by_id (db : DB) (oid : Z) : option order_row :=
  find (fun o => o_id o =? oid) (orders db).

Definition find_withdrawal_by_num (db : DB) (num : string) : option withdrawal_row :=
  find (fun w => String.eqb (w_number w) num) (withdrawals db).

Definition find_balance (db : DB) (uid : Z) : option balance_row :=
  find (fun b => b_user_id b =? uid) (balances db).

(** [SELECT current FROM balances WHERE user_id = $1]. *)
Definition current_of (db : DB) (uid : Z) : option Z :=
  option_map b_current (find_balance db uid).

(** Record updates. *)
Definition set_orders (db : DB) (os : list order_row) : DB :=
  mkDB (users db) os (withdrawals db) (balances db)
       (users_seq db) (orders_seq db) (withdrawals_seq db).

Definition set_balances (db : DB) (bs : list balance_row) : DB :=
  mkDB (users db) (orders db) (withdrawals db) bs
       (users_seq db) (orders_seq db) (withdrawals_seq db).

Definition bump_orders_seq (db : DB) : DB :=
  mkDB (users db) (orders db) (withdrawals db) (balances db)
       (users_seq db) (orders_seq db + 1) (withdrawals_seq db).

Definition bump_withdrawals_seq (db : DB) : DB :=
  mkDB (users db) (orders db) (withdrawals db) (balances db)
       (users_seq db) (orders_seq db) (withdrawals_seq db + 1).

Definition bump_users_seq (db : DB) : DB :=
  mkDB (users db) (orders db) (withdrawals db) (balances db)
       (users_seq db + 1) (orders_seq db) (withdrawals_seq db).

(** [UPDATE balances SET current = current + $1 WHERE user_id = $2]. *)
Definition credit_balances (bs : list balance_row) (uid acc : Z) : list balance_row :=
  map (fun b => if b_user_id b =? uid
                then mkBalance (b_user_id b) (b_current b + acc) (b_withdrawn b)
                else b) bs.

(** [UPDATE balances SET current = current - $1, withdrawn = withdrawn + $1
    WHERE user_id = $2]. *)
Definition debit_balances (bs : list balance_row) (uid sum : Z) : list balance_row :=
  map (fun b => if b_user_id b =? uid
                then mkBalance (b_user_id b) (b_current b - sum) (b_withdrawn b + sum)
                else b) bs.

(** [UPDATE orders SET status = $1, accrual = $2, updated_at = NOW()
    WHERE id = $3]. *)
Definition set_order_status (os : list order_row) (oid : Z) (st : OrderStatus)
    (acc : option Z) : list order_row :=
  map (fun o => if o_id o =? oid
                then mkOrderRow (o_id o) (o_user_id o) (o_number o) st acc
                else o) os.

(** [DBStorage.CreateOrder]: [INSERT INTO orders (user_id, number, status)
    VALUES ($1, $2, 'NEW') RETURNING id].  On a unique violation of
    [orders.number] the existing row is read back with [GetOrderByNum] and
    the function returns the local [orderID], which [row.Scan] left at its
    zero value, together with [ErrOrderNumCreated] or [ErrOrderNumUsed].
    The unique index is checked before the foreign key on [user_id]. *)
Definition CreateOrder (db : DB) (userID : Z) (orderNum : string)
    : DB * (Z * option StoreErr) :=
  let id := orders_seq db in
  let db1 := bump_orders_seq db in
  match find_order_by_num db orderNum with
  | Some order =>
      let orderID := 0 in
      if o_user_id order =? userID
      then (db1, (orderID, Some ErrOrderNumCreated))
      else (db1, (orderID, Some ErrOrderNumUsed))
  | None =>
      match find_user_by_id db userID with
      | None => (db1, (0, Some ErrDB))
      | Some _ =>
          (set_orders db1 (orders db1 ++ [mkOrderRow id userID orderNum OrderNew None]),
           (id, None))
      end
  end.

(** [DBStorage.Withdraw]: one transaction.  [SELECT current FROM balances
    WHERE user_id = $1 FOR UPDATE]; [ErrInsufficientFunds] when
    [current < sum]; then [INSERT INTO withdrawals], whose unique violation
    on [number] gives [ErrOrderNumUsed]; then the balance update and the
    commit.  Every early return rolls the transaction back (the sequence
    value consumed by a failed insert stays consumed). *)
Definition Withdraw (db : DB) (userID sum : Z) (order : string)
    : DB * option StoreErr :=
  match current_of db userID with
  | None => (db, Some ErrDB)
  | Some current =>
      if current <? sum then (db, Some ErrInsufficientFunds)
      else
        let id := withdrawals_seq db in
        let db1 := bump_withdrawals_seq db in
        match find_withdrawal_by_num db order with
        | Some _ => (db1, Some ErrOrderNumUsed)
        | None =>
            let db2 := mkDB (users db1) (orders db1)
                         (withdrawals db1 ++ [mkWithdrawal id userID order sum])
                         (balances db1) (users_seq db1) (orders_seq db1)
                         (withdrawals_seq db1) in
            (set_balances db2 (debit_balances (balances db2) userID sum), None)
        end
  end.

(** [DBStorage.UpdateOrderStatus]: one transaction.  Reads the owner of the
    order ([ErrDB] when there is none); when [accrual > 0] credits the
    owner's balance by [accrual] and stores it, otherwise stores [NULL];
    sets the status.  The current status of the order is not consulted. *)
Definition UpdateOrderStatus (db : DB) (orderID : Z) (status : OrderStatus)
    (accrual : Z) : DB * option StoreErr :=
  match find_order_by_id db orderID with
  | None => (db, Some ErrDB)
  | Some o =>
      let userID := o_user_id o in
      let '(db1, accrualToUpdate) :=
        if 0 <? accrual
        then (set_balances db (credit_balances (balances db) userID accrual), Some accrual)
        else (db, None) in
      (set_orders db1 (set_order_status (orders db1) orderID status accrualToUpdate), None)
  end.

Section Users.

(** [strings.ToLower] maps [unicode.ToLower] over the runes of a string;
    the rune mapping is a parameter here (see [Unicode] below for the part
    of Go's table used in this file). *)
Variable to_lower_rune : Z -> Z.
(** [utils.GeneratePasswordHash] (bcrypt); it can fail. *)
Variable GeneratePasswordHash : string -> option string.

Definition ToLower (s : list Z) : list Z := map to_lower_rune s.

Definition isSome {A} (o : option A) : bool :=
  match o with Some _ => true | None => false end.

(** [DBStorage.CreateUser]: lowercases the login, hashes the password, and
    in one transaction inserts the user ([ErrLoginTaken] on any unique
    violation of the insert into [users]) and its zero balance row (any
    error of this second insert is a wrapped error). *)
Definition CreateUser (db : DB) (login : list Z) (password : string)
    : DB * (Z * option StoreErr) :=
  let login := ToLower login in
  match GeneratePasswordHash password with
  | None => (db, (0, Some ErrDB))
  | Some passwordHash =>
      let userID := users_seq db in
      let db1 := bump_users_seq db in
      match find_user_by_login db login with
      | Some _ => (db1, (0, Some ErrLoginTaken))
      | None =>
      (* the primary key [users.id] is a unique constraint of the same
         insert, so a collision there is [ErrLoginTaken] too; then the
         insert into [balances] fails on [balances.user_id UNIQUE].  [SERIAL]
         values never collide in practice, the checks are the constraints *)
      if isSome (find_user_by_id db userID) then (db1, (0, Some ErrLoginTaken))
      else if isSome (find_balance db userID) then (db1, (0, Some ErrDB))
      else
          (mkDB (users db1 ++ [mkUser userID login passwordHash]) (orders db1)
                (withdrawals db1) (balances db1 ++ [mkBalance userID 0 0])
                (users_seq db1) (orders_seq db1) (withdrawals_seq db1),
           (userID, None))
      end
  end.

(** [DBStorage.GetUserByLogin]: lowercases the login and selects the user. *)
Definition GetUserByLogin (db : DB) (login : list Z) : user_row + StoreErr :=
  match find_user_by_login db (ToLower login) with
  | Some u => inl u
  | None => inr ErrNoUser
  end.

End Users.

End Storage.

(* ------------------------------------------------------------------ *)
(** ** package handlers: [UserHandler.Withdraw] *)

Module Handlers.
Import Storage.

(** The decoded body of a withdraw request ([model.Withdrawn]). *)
Record WithdrawReq := mkWithdrawReq { req_Number : string; req_Sum : Z }.

(** [UserHandler.Withdraw]: checks the content type, decodes the body,
    validates the order number ([utils.IsValidOrderNum], a Luhn check) and
    the sum ([Sum <= 0] answers 400), then calls [storage.Withdraw] and maps
    its errors to HTTP status codes.  [body = None] is a decode failure. *)
Definition UserHandler_Withdraw (IsValidOrderNum : string -> bool)
    (db : DB) (userID : Z) (isJSON : bool) (body : option WithdrawReq) : DB * Z :=
  if negb isJSON then (db, 400) else
  match body with
  | None => (db, 500)
  | Some reqWithdraw =>
      if String.eqb (req_Number reqWithdraw) "" || negb (IsValidOrderNum (req_Number reqWithdraw))
      then (db, 422)
      else if req_Sum reqWithdraw <=? 0 then (db, 400)
      else
        let '(db', err) := Withdraw db userID (req_Sum reqWithdraw) (req_Number reqWithdraw) in
        match err with
        | None => (db', 200)
        | Some ErrInsufficientFunds => (db', 402)
        | Some ErrOrderNumUsed => (db', 409)
        | Some _ => (db', 500)
        end
  end.

End Handlers.

(* ------------------------------------------------------------------ *)
(** ** package agent: [fetchOrderStatus] and [worker] *)

Module Agent.

(** An HTTP answer of the accrual service: status code, the [Retry-After]
    header, and the body as decoded by [json.Decoder] ([None] when the
    decoding fails).  A transport error is [None] in place of a response. *)
Record HttpResponse := mkHttpResponse {
  StatusCode : Z;
  RetryAfter : string;
  Body : option AccrualResultRes
}.

Definition StatusTooManyRequests := 429.
Definition StatusNoContent := 204.
Definition StatusOK := 200.

(** The result of [fetchOrderStatus]: a result, [ErrReqLimit], or any other
    error. *)
Inductive FetchResult :=
  | FetchOk (r : AccrualResultRes)
  | FetchErrReqLimit
  | FetchErr.

(** Lines 74-76 of [fetchOrderStatus]: under the write lock,
    [aa.rateLimitEndTime = time.Now().Add(retryAfterDuration)].  Times and
    durations are in seconds. *)
Definition publishRateLimit (now retryAfterDuration rateLimitEndTime : Z) : Z :=
  now + retryAfterDuration.

Section Fetch.

(** [time.ParseDuration] of the Go standard library, in seconds. *)
Variable ParseDuration : string -> option Z.

(** [AccrualAgent.fetchOrderStatus] at time [now], given the answer [res];
    returns the result and the new [rateLimitEndTime]. *)
Definition fetchOrderStatus (now rateLimitEndTime : Z) (orderNum : string)
    (res : option HttpResponse) : FetchResult * Z :=
  match res with
  | None => (FetchErr, rateLimitEndTime)
  | Some res =>
      if StatusCode res =? StatusTooManyRequests then
        match ParseDuration (RetryAfter res ++ "s") with
        | None => (FetchErr, rateLimitEndTime)
        | Some retryAfterDuration =>
            (FetchErrReqLimit, publishRateLimit now retryAfterDuration rateLimitEndTime)
        end
      else if StatusCode res =? StatusNoContent then
        (FetchOk (mkAccrualResultRes orderNum OrderAccInvalid 0), rateLimitEndTime)
      else if negb (StatusCode res =? StatusOK) then (FetchErr, rateLimitEndTime)
      else match Body res with
           | None => (FetchErr, rateLimitEndTime)
           | Some result => (FetchOk result, rateLimitEndTime)
           end
  end.

(** The [switch result.Status] of [worker]. *)
Definition orderStatusOf (s : OrderAccrualStatus) : OrderStatus :=
  if String.eqb s OrderAccProcessed then OrderProcessed
  else if String.eqb s OrderAccInvalid then OrderInvalid
  else OrderProcessing.

(** One pass of the inner [for] loop of [worker], as seen from outside: the
    clock when the rate limit is read, whether the [select] of the sleep
    picks [ctx.Done()] (the environment resolves Go's choice), and the
    answer of the service to the fetch. *)
Record Attempt := mkAttempt {
  at_now : Z;
  cancel_in_sleep : bool;
  response : option HttpResponse
}.

(** How a fetch was classified by the worker. *)
Inductive FetchClass := CRateLimited | CTransient | CVerdict.

(** How the handling of one received order ended. *)
Inductive Outcome :=
  | Applied (orderID : Z) (status : OrderStatus) (accrual : Z)
      (* [aa.storage.UpdateOrderStatus(ctx, orderID, status, accrual)] was
         called; its error is only logged *)
  | Abandoned        (* [break] after a non-rate-limit error *)
  | WorkerStopped    (* [return] from the sleep on [ctx.Done()] *)
  | NoMoreAttempts.  (* the environment has no further pass to offer *)

Definition classify (r : FetchResult) : FetchClass :=
  match r with
  | FetchOk _ => CVerdict
  | FetchErrReqLimit => CRateLimited
  | FetchErr => CTransient
  end.

(** The inner [for] loop of [worker] for one order.  Returns the classes
    of its fetches, its outcome, the rate-limit deadline and the unused
    attempts. *)
Fixpoint process_order (order : Order) (rateLimitEndTime : Z) (atts : list Attempt)
    : list FetchClass * Outcome * Z * list Attempt :=
  match atts with
  | [] => ([], NoMoreAttempts, rateLimitEndTime, [])
  | a :: rest =>
      let sleepDuration := rateLimitEndTime - at_now a in
      if (0 <? sleepDuration) && cancel_in_sleep a
      then ([], WorkerStopped, rateLimitEndTime, rest)
      else
        let now := Z.max (at_now a) rateLimitEndTime in
        let '(result, rle) := fetchOrderStatus now rateLimitEndTime (Number order) (response a) in
        match result with
        | FetchErrReqLimit =>
            let '(log, out, rle', rest') := process_order order rle rest in
            (CRateLimited :: log, out, rle', rest')
        | FetchErr => ([CTransient], Abandoned, rle, rest)
        | FetchOk r =>
            ([CVerdict], Applied (ID order) (orderStatusOf (res_Status r)) (res_Accrual r),
             rle, rest)
        end
  end.

(** The outer [for]/[select] loop of [worker].  [recv] resolves the outer
    [select]: [true] when it picks [ctx.Done()], [false] when it receives;
    [ch] holds the items the channel delivers (the worker returns when it
    is closed and drained).  The log pairs each fetch with the position of
    the channel item it was for, counted from [n]; [calls] lists the
    [UpdateOrderStatus] calls. *)
Fixpoint worker (n : nat) (recv : list bool) (ch : list Order)
    (rateLimitEndTime : Z) (atts : list Attempt)
    : list (nat * FetchClass) * list (Z * OrderStatus * Z) :=
  match recv with
  | [] => ([], [])
  | true :: _ => ([], [])
  | false :: recv' =>
      match ch with
      | [] => ([], [])
      | order :: ch' =>
          let '(log, out, rle, rest) := process_order order rateLimitEndTime atts in
          let here := map (fun c => (n, c)) log in
          match out with
          | Applied oid st acc =>
              let '(log', calls') := worker (S n) recv' ch' rle rest in
              (here ++ log', (oid, st, acc) :: calls')
          | Abandoned =>
              let '(log', calls') := worker (S n) recv' ch' rle rest in
              (here ++ log', calls')
          | WorkerStopped | NoMoreAttempts => (here, [])
          end
      end
  end.

End Fetch.

(** A [time.ParseDuration] for witnesses: it agrees with Go on strings of
    decimal digits followed by [s] (whole seconds) and rejects the rest. *)
Fixpoint digits_value (s : string) (acc : Z) : option Z :=
  match s with
  | EmptyString => None
  | String c EmptyString =>
      if Ascii.eqb c "s"%char then Some acc else None
  | String c s' =>
      let d := Z.of_nat (Ascii.nat_of_ascii c) - 48 in
      if (0 <=? d) && (d <=? 9) then digits_value s' (10 * acc + d) else None
  end.

Definition ParseSeconds (s : string) : option Z :=
  match s with
  | String c _ => if Ascii.eqb c "s"%char then None else digits_value s 0
  | EmptyString => None
  end.

End Agent.

(* ------------------------------------------------------------------ *)
(** ** package agent: [NewAccrualAgent], [StartAgent], [StopAgent] *)

Module Lifecycle.

(** [workerCount]. *)
Definition workerCount : nat := 5.

(** A [context.Context] created by [context.WithCancel]. *)
Record Ctx := mkCtx { ctx_cancelled : bool }.

(** The lifecycle fields of [AccrualAgent]: [ctx] ([None] is the nil
    interface of a fresh struct), [ordersCh] ([None] is the nil channel,
    [Some closed] otherwise) and the counter of [wg], i.e. the goroutines
    that have not yet called [wg.Done()]. *)
Record AccrualAgent := mkAgent {
  ctx : option Ctx;
  ordersCh : option bool;
  wg : nat
}.

(** A Go call either returns or panics. *)
Inductive GoResult (A : Type) := Returned (a : A) | Panicked.
Arguments Returned {A} a.
Arguments Panicked {A}.

(** [NewAccrualAgent]: [ctx], [ctxCancel] and [ordersCh] keep their zero
    values. *)
Definition NewAccrualAgent : AccrualAgent := mkAgent None None 0.

(** [StartAgent]: a fresh cancellable context, a fresh channel, and
    [workerCount] workers plus [processOrders] registered in [wg]. *)
Definition StartAgent (aa : AccrualAgent) : AccrualAgent :=
  mkAgent (Some (mkCtx false)) (Some false) (wg aa + workerCount + 1).

(** [StopAgent]: [aa.ctx.Err()] on the nil interface panics; a cancelled
    context returns at once; otherwise [ctxCancel()], [close(ordersCh)]
    (which panics on a nil or closed channel) and [wg.Wait()], which
    returns once the counter is zero: every worker returns on
    [ctx.Done()] or on the closed channel, [processOrders] on
    [ctx.Done()] (unless its [select] picks the send on the closed channel
    and the program panics, see [Dispatch.push_orders]). *)
Definition StopAgent (aa : AccrualAgent) : GoResult AccrualAgent :=
  match ctx aa with
  | None => Panicked
  | Some c =>
      if ctx_cancelled c then Returned aa
      else match ordersCh aa with
           | None | Some true => Panicked
           | Some false => Returned (mkAgent (Some (mkCtx true)) (Some true) 0)
           end
  end.

End Lifecycle.

(* ------------------------------------------------------------------ *)
(** ** Case mapping of runes *)

Module Unicode.

(** [unicode.ToLower] and [unicode.ToUpper] of Go on the Basic Latin letters
    and the basic Greek letters (U+0391..U+03A9, U+03B1..U+03C9, with the
    final sigma U+03C2 whose upper case is U+03A3 and which is its own lower
    case).  Runes outside these two ranges are left as they are here; Go
    maps some of them, and no statement below uses them. *)
Definition go_to_lower (r : Z) : Z :=
  if (65 <=? r) && (r <=? 90) then r + 32
  else if (913 <=? r) && (r <=? 937) && negb (r =? 930) then r + 32
  else r.

Definition go_to_upper (r : Z) : Z :=
  if (97 <=? r) && (r <=? 122) then r - 32
  else if r =? 962 then 931
  else if (945 <=? r) && (r <=? 969) then r - 32
  else r.

(** Two logins differ only in letter case: rune by rune, the two runes have
    the same lower case or the same upper case. *)
Fixpoint differ_only_in_case (a b : list Z) : bool :=
  match a, b with
  | [], [] => true
  | x :: a', y :: b' =>
      ((go_to_lower x =? go_to_lower y) || (go_to_upper x =? go_to_upper y))
      && differ_only_in_case a' b'
  | _, _ => false
  end.

End Unicode.

(* ------------------------------------------------------------------ *)
(** ** Concrete stores and runs *)

Module Scenarios.
Import Storage.

(** A password hasher for runs: hashing never fails. *)
Definition hash_stub (p : string) : option string := Some ("bcrypt:" ++ p)%string.

(** The login "alice" as runes. *)
Definition alice : list Z := [97; 108; 105; 99; 101].

Definition db_alice : DB :=
  fst (CreateUser Unicode.go_to_lower hash_stub empty_db alice "secret").

Definition order_num : string := "79927398713".

(** alice (user 1) has submitted order 1, status [NEW]. *)
Definition db_order : DB := fst (CreateOrder db_alice 1 order_num).

(** A balance of 100 and a withdrawal already recorded for "12345678903". *)
Definition db_rich : DB :=
  set_balances
    (fst (Withdraw (set_balances db_alice [mkBalance 1 200 0]) 1 100 "12345678903"))
    [mkBalance 1 100 100].

(** A [ComparePwdAndHash] matching [hash_stub], and a token builder that
    always succeeds. *)
Definition stub_cmp (p h : string) : bool := String.eqb h ("bcrypt:" ++ p)%string.
Definition stub_jwt (id : Z) (l : list Z) : option string := Some "token"%string.

End Scenarios.

(* ------------------------------------------------------------------ *)
(** ** Runs of the store and of a worker *)

Module Runs.
Import Storage Agent.

(** Every operation of the store that writes. *)
Inductive StoreOp :=
  | OpCreateUser (login : list Z) (password : string)
  | OpCreateOrder (userID : Z) (orderNum : string)
  | OpWithdraw (userID sum : Z) (order : string)
  | OpUpdateOrderStatus (orderID : Z) (status : OrderStatus) (accrual : Z).

Definition store_step (to_lower_rune : Z -> Z) (hash : string -> option string)
    (db : DB) (op : StoreOp) : DB :=
  match op with
  | OpCreateUser l p => fst (CreateUser to_lower_rune hash db l p)
  | OpCreateOrder u n => fst (CreateOrder db u n)
  | OpWithdraw u s n => fst (Withdraw db u s n)
  | OpUpdateOrderStatus o st a => fst (UpdateOrderStatus db o st a)
  end.

(** The balance table as the schema keeps it ([balances.user_id UNIQUE])
    with no negative [current]. *)
Definition balances_ok (db : DB) : Prop :=
  NoDup (map b_user_id (balances db)) /\ Forall (fun b => 0 <= b_current b) (balances db).

(** The same verdict applied [n] times in a row. *)
Fixpoint repeat_update (n : nat) (db : DB) (orderID : Z) (status : OrderStatus)
    (accrual : Z) : DB :=
  match n with
  | O => db
  | S n' => fst (UpdateOrderStatus (repeat_update n' db orderID status accrual)
                   orderID status accrual)
  end.

(** The log of a worker: consecutive fetches are for the same channel item
    after a rate-limited fetch, and for the next item after any other. *)
Fixpoint log_ok (l : list (nat * FetchClass)) : Prop :=
  match l with
  | (i, c) :: ((j, _) :: _) as rest =>
      match c with
      | CRateLimited => j = i
      | _ => j = S i
      end /\ log_ok rest
  | _ => True
  end.

Definition starts_at (n : nat) (l : list (nat * FetchClass)) : Prop :=
  match l with
  | [] => True
  | (j, _) :: _ => j = n
  end.

End Runs.

(* ------------------------------------------------------------------ *)
(** ** package storage: the read methods *)

Module Queries.
Import Storage.

(* None of the [SELECT]s below has an [ORDER BY]: the database returns the
   rows in an order of its choosing.  The model lists them in table order,
   which is one of the possible orders. *)

(** A scanned [model.Order]: [COALESCE(accrual, 0)] in the [SELECT]. *)
Record OrderScan := mkOrderScan {
  sc_ID : Z; sc_UserID : Z; sc_Number : string; sc_Status : OrderStatus; sc_Accrual : Z
}.

Definition scan_order (o : order_row) : OrderScan :=
  mkOrderScan (o_id o) (o_user_id o) (o_number o) (o_status o)
    (match o_accrual o with Some a => a | None => 0 end).

(** [DBStorage.GetOrderByNum]: no row is a wrapped [pgx.ErrNoRows]. *)
Definition GetOrderByNum (db : DB) (orderNum : string) : OrderScan + StoreErr :=
  match find_order_by_num db orderNum with
  | Some o => inl (scan_order o)
  | None => inr ErrDB
  end.

(** [DBStorage.GetUserOrders]: [... FROM orders WHERE user_id = $1]. *)
Definition GetUserOrders (db : DB) (userID : Z) : list OrderScan :=
  map scan_order (filter (fun o => o_user_id o =? userID) (orders db)).

(** [DBStorage.GetUserBalance]: [SELECT current, withdrawn FROM balances
    WHERE user_id = $1]; no row is a wrapped error. *)
Definition GetUserBalance (db : DB) (userID : Z) : (Z * Z) + StoreErr :=
  match find_balance db userID with
  | Some b => inl (b_current b, b_withdrawn b)
  | None => inr ErrDB
  end.

(** [DBStorage.GetWithdrawals]: [... FROM withdrawals WHERE user_id = $1]. *)
Definition GetWithdrawals (db : DB) (userID : Z) : list withdrawal_row :=
  filter (fun w => w_user_id w =? userID) (withdrawals db).

Definition is_to_process (st : OrderStatus) : bool :=
  match st with
  | OrderNew | OrderProcessing => true
  | OrderInvalid | OrderProcessed => false
  end.

(** [DBStorage.GetOrdersToProcess]: [... FROM orders WHERE status IN
    ('NEW', 'PROCESSING')]. *)
Definition GetOrdersToProcess (db : DB) : list OrderScan :=
  map scan_order (filter (fun o => is_to_process (o_status o)) (orders db)).

End Queries.

(* ------------------------------------------------------------------ *)
(** ** package agent: [processOrders] *)

Module Dispatch.
Import Queries.

(** The [model.Order] a worker receives: the scanned row without its
    accrual. *)
Definition to_agent_order (o : OrderScan) : Order :=
  mkOrder (sc_ID o) (sc_UserID o) (sc_Number o) (sc_Status o).

(** What the inner [select] of [processOrders] picks for one order:
    [ctx.Done()] (the loop returns), the send on [ordersCh], or the send
    after [StopAgent] has closed [ordersCh], which panics.  [StopAgent]
    cancels the context before it closes the channel, so when the send on
    the closed channel can be picked, so can [ctx.Done()]: Go picks at
    random among the ready cases. *)
Inductive SelectPick := PickDone | PickSend | PickClosedSend.

(** How a loop of [processOrders] ended: it is still running (a pass that
    sent every order), it returned, or it panicked. *)
Inductive LoopEnd := LoopRunning | LoopReturned | LoopPanicked.

(** The inner [for]/[select] of [processOrders]: [pick i] resolves the
    [select] for the [i]-th order.  Returns the orders sent and how the
    loop ended. *)
Fixpoint push_orders (i : nat) (pick : nat -> SelectPick) (orders : list OrderScan)
    : list Order * LoopEnd :=
  match orders with
  | [] => ([], LoopRunning)
  | order :: orders' =>
      match pick i with
      | PickDone => ([], LoopReturned)
      | PickClosedSend => ([], LoopPanicked)
      | PickSend =>
          let '(sent, e) := push_orders (S i) pick orders' in
          (to_agent_order order :: sent, e)
      end
  end.

(** What the outer [select] of [processOrders] picks: [ctx.Done()], or the
    timer, after which [GetOrdersToProcess] reads a snapshot of the store
    ([None] when the query fails). *)
Inductive DispatchEvent :=
  | EvDone
  | EvTick (snapshot : option Storage.DB) (pick : nat -> SelectPick).

(** [AccrualAgent.processOrders]: the orders sent on the channel and how
    the loop ended ([LoopRunning] when the events are used up). *)
Fixpoint processOrders (evs : list DispatchEvent) : list Order * LoopEnd :=
  match evs with
  | [] => ([], LoopRunning)
  | EvDone :: _ => ([], LoopReturned)
  | EvTick None _ :: evs' => processOrders evs'
  | EvTick (Some db) pick :: evs' =>
      let '(sent, e) := push_orders 0 pick (GetOrdersToProcess db) in
      match e with
      | LoopRunning => let '(sent', e') := processOrders evs' in (sent ++ sent', e')
      | LoopReturned | LoopPanicked => (sent, e)
      end
  end.

End Dispatch.

(* ------------------------------------------------------------------ *)
(** ** package handlers: the other handlers of [UserHandler] *)

Module Api.
Import Storage Queries.

Section Handlers.

Variable to_lower_rune : Z -> Z.
(** [utils.GeneratePasswordHash], [utils.ComparePwdAndHash],
    [utils.IsValidOrderNum] and [utils.BuildJWTSting] (given the user id
    and login); hashing and token building can fail. *)
Variable GeneratePasswordHash : string -> option string.
Variable ComparePwdAndHash : string -> string -> bool.
Variable IsValidOrderNum : string -> bool.
Variable BuildJWTSting : Z -> list Z -> option string.

(** The decoded body of [model.User] in a register or login request. *)
Record UserReq := mkUserReq { req_Login : list Z; req_Password : string }.

(** [UserHandler.RegisterUser]: the status code and the JWT cookie set. *)
Definition RegisterUser (db : DB) (isJSON : bool) (body : option UserReq)
    : DB * (Z * option string) :=
  if negb isJSON then (db, (400, None)) else
  match body with
  | None => (db, (500, None))
  | Some user =>
      if (match req_Login user with [] => true | _ => false end)
         || String.eqb (req_Password user) ""
      then (db, (400, None))
      else
        let '(db', (userID, err)) :=
          CreateUser to_lower_rune GeneratePasswordHash db (req_Login user) (req_Password user) in
        match err with
        | Some ErrLoginTaken => (db', (409, None))
        | Some _ => (db', (500, None))
        | None =>
            match BuildJWTSting userID (req_Login user) with
            | None => (db', (500, None))
            | Some jwtString => (db', (200, Some jwtString))
            end
        end
  end.

(** [UserHandler.Login]: the status code and the JWT cookie set. *)
Definition Login (db : DB) (isJSON : bool) (body : option UserReq) : Z * option string :=
  if negb isJSON then (400, None) else
  match body with
  | None => (500, None)
  | Some reqUser =>
      if (match req_Login reqUser with [] => true | _ => false end)
         || String.eqb (req_Password reqUser) ""
      then (400, None)
      else
        match GetUserByLogin to_lower_rune db (req_Login reqUser) with
        | inr ErrNoUser => (401, None)
        | inr _ => (500, None)
        | inl dbUser =>
            if negb (ComparePwdAndHash (req_Password reqUser) (u_password_hash dbUser))
            then (401, None)
            else match BuildJWTSting (u_id dbUser) (u_login dbUser) with
                 | None => (500, None)
                 | Some jwtString => (200, Some jwtString)
                 end
        end
  end.

(** [UserHandler.CreateNewOrder]: [body = None] is a failed
    [io.ReadAll]. *)
Definition CreateNewOrder (db : DB) (userID : Z) (isText : bool) (body : option string)
    : DB * Z :=
  if negb isText then (db, 400) else
  match body with
  | None => (db, 500)
  | Some orderNum =>
      if negb (IsValidOrderNum orderNum) then (db, 422)
      else
        let '(db', (_, err)) := CreateOrder db userID orderNum in
        match err with
        | Some ErrOrderNumUsed => (db', 409)
        | Some ErrOrderNumCreated => (db', 200)
        | Some _ => (db', 500)
        | None => (db', 202)
        end
  end.

End Handlers.

(** [UserHandler.GetOrders]: 204 when the list is empty. *)
Definition GetOrders (db : DB) (userID : Z) : Z * list OrderScan :=
  match GetUserOrders db userID with
  | [] => (204, [])
  | orders => (200, orders)
  end.

(** [UserHandler.GetBalance]. *)
Definition GetBalance (db : DB) (userID : Z) : Z * option (Z * Z) :=
  match GetUserBalance db userID with
  | inl balance => (200, Some balance)
  | inr _ => (500, None)
  end.

(** [UserHandler.GetWithdraws]: 204 when the list is empty. *)
Definition GetWithdraws (db : DB) (userID : Z) : Z * list withdrawal_row :=
  match GetWithdrawals db userID with
  | [] => (204, [])
  | withdrawals => (200, withdrawals)
  end.

End Api.

(* ------------------------------------------------------------------ *)
(** ** package config: [validateConf] *)

Module Config.

Record ServerConf := mkServerConf {
  ServerAddress : string; AccrualAddress : string; DSN : string; LogLevel : string
}.

(** [validateConf]: [None] for a valid configuration, otherwise the
    message of the returned error. *)
Definition validateConf (cfg : ServerConf) : option string :=
  let invalidParams := if String.eqb (AccrualAddress cfg) "" then ["accrual address"%string] else [] in
  let invalidParams := invalidParams ++
                         (if String.eqb (DSN cfg) "" then ["database uri"%string] else []) in
  if (0 <? List.length invalidParams)%nat
  then Some ("invalid config params: " ++ String.concat "; " invalidParams)%string
  else None.

End Config.

(* ------------------------------------------------------------------ *)
(** ** Runs of the store from an empty database *)

Module StoreRuns.
Import Storage Runs.

(** The store after a sequence of write operations on an empty database. *)
Definition run_store (to_lower_rune : Z -> Z) (hash : string -> option string)
    (ops : list StoreOp) : DB :=
  fold_left (store_step to_lower_rune hash) ops empty_db.

(** The unique columns of the schema: [users.login], [orders.number],
    [withdrawals.number]. *)
Definition unique_ok (db : DB) : Prop :=
  NoDup (map u_login (users db)) /\ NoDup (map o_number (orders db)) /\
  NoDup (map w_number (withdrawals db)).

(** Every recorded withdrawal belongs to a user with a balance row. *)
Definition withdrawals_owned (db : DB) : Prop :=
  forall w, In w (withdrawals db) -> In (w_user_id w) (map b_user_id (balances db)).

(** [l1] is a subsequence of [l2]. *)
Fixpoint is_subseq (l1 l2 : list Z) : bool :=
  match l1, l2 with
  | [], _ => true
  | _ :: _, [] => false
  | x :: l1', y :: l2' => if x =? y then is_subseq l1' l2' else is_subseq l1 l2'
  end.

End StoreRuns.

(* ================================================================== *)
(** * Properties *)

Import Storage Agent Lifecycle Scenarios Runs.

(** ** Runs on concrete inputs *)

(** C1 (counterexample): alice's order 1 is processed with accrual 500 and
    the same verdict is applied a second time: both calls succeed and the
    balance goes 0, 500, 1000; the order is credited twice. *)
Lemma C1_double_credit :
  current_of db_order 1 = Some 0 /\
  snd (UpdateOrderStatus db_order 1 OrderProcessed 500) = None /\
  current_of (fst (UpdateOrderStatus db_order 1 OrderProcessed 500)) 1 = Some 500 /\
  snd (UpdateOrderStatus (fst (UpdateOrderStatus db_order 1 OrderProcessed 500))
         1 OrderProcessed 500) = None /\
  current_of (fst (UpdateOrderStatus (fst (UpdateOrderStatus db_order 1 OrderProcessed 500))
                     1 OrderProcessed 500)) 1 = Some 1000.
Proof. vm_compute. repeat split. Qed.

(** C2 (counterexample): a worker is throttled at time 0 with
    [Retry-After: 100]; the deadline becomes 100.  Another worker is
    throttled at time 10 with [Retry-After: 5]: the deadline is overwritten
    with 15, earlier than 100. *)
Lemma C2_deadline_moves_earlier :
  fetchOrderStatus ParseSeconds 0 0 "79927398713"
    (Some (mkHttpResponse 429 "100" None)) = (FetchErrReqLimit, 100) /\
  fetchOrderStatus ParseSeconds 10 100 "12345678903"
    (Some (mkHttpResponse 429 "5" None)) = (FetchErrReqLimit, 15) /\
  15 < 100.
Proof. vm_compute. repeat split. Qed.

(** C3 (counterexample): applying a verdict with status [INVALID] (or
    [PROCESSING]) and accrual 5 to alice's order raises her balance from 0
    to 5. *)
Lemma C3_invalid_verdict_credits :
  current_of db_order 1 = Some 0 /\
  current_of (fst (UpdateOrderStatus db_order 1 OrderInvalid 5)) 1 = Some 5 /\
  current_of (fst (UpdateOrderStatus db_order 1 OrderProcessing 5)) 1 = Some 5.
Proof. vm_compute. repeat split. Qed.

(** C4 (counterexample): balance 100, the number "12345678903" already
    used by a withdrawal, withdrawal of 150 against it: the call fails with
    [ErrInsufficientFunds], not with the reused-number error. *)
Lemma C4_insufficient_before_reuse :
  current_of db_rich 1 = Some 100 /\
  find_withdrawal_by_num db_rich "12345678903" <> None /\
  snd (Withdraw db_rich 1 150 "12345678903") = Some ErrInsufficientFunds /\
  snd (Withdraw db_rich 1 150 "12345678903") <> Some ErrOrderNumUsed.
Proof. vm_compute. repeat split; discriminate. Qed.

(** C5 (code bug): alice resubmits order "79927398713", whose row has id 1:
    [CreateOrder] returns id 0 (the zero value of its local [orderID]) with
    [ErrOrderNumCreated]; no row is added. *)
Lemma C5_resubmission_returns_zero_id :
  option_map o_id (find_order_by_num db_order order_num) = Some 1 /\
  snd (CreateOrder db_order 1 order_num) = (0, Some ErrOrderNumCreated) /\
  orders (fst (CreateOrder db_order 1 order_num)) = orders db_order.
Proof. vm_compute. repeat split. Qed.

(** C8 (code bug): [StopAgent] on an agent that was never started
    evaluates [aa.ctx.Err()] on a nil interface and panics. *)
Lemma C8_stop_unstarted_panics :
  StopAgent NewAccrualAgent = Panicked.
Proof. reflexivity. Qed.

(** C10 (counterexample): the logins "Σ" (U+03A3) and "ς" (U+03C2) differ
    only in letter case (ς upper-cases to Σ), but [strings.ToLower] maps
    them to σ and ς: after "Σ" is registered, registering "ς" succeeds and
    creates a second account. *)
Lemma C10_final_sigma_is_another_account :
  Unicode.differ_only_in_case [931] [962] = true /\
  snd (CreateUser Unicode.go_to_lower hash_stub empty_db [931] "pw") = (1, None) /\
  snd (CreateUser Unicode.go_to_lower hash_stub
         (fst (CreateUser Unicode.go_to_lower hash_stub empty_db [931] "pw")) [962] "pw")
    = (2, None).
Proof. vm_compute. repeat split. Qed.

(** ** Lemmas on the store *)

Lemma find_map_same {A} (p : A -> bool) (f : A -> A) (l : list A) :
  (forall x, p (f x) = p x) -> find p (map f l) = option_map f (find p l).
Proof.
  intros Hp. induction l as [|x l IH]; simpl; [reflexivity|].
  rewrite Hp. destruct (p x); [reflexivity | exact IH].
Qed.

Lemma find_app_r {A} (p : A -> bool) (l : list A) (x : A) :
  find p l = None -> p x = true -> find p (l ++ [x]) = Some x.
Proof.
  induction l as [|y l IH]; simpl; intros Hn Hx.
  - rewrite Hx. reflexivity.
  - destruct (p y); [discriminate | exact (IH Hn Hx)].
Qed.

Lemma runes_eqb_refl (a : list Z) : runes_eqb a a = true.
Proof. induction a as [|x a IH]; simpl; [reflexivity|]. rewrite Z.eqb_refl. exact IH. Qed.

(** The owner and the id of an order survive [UpdateOrderStatus]. *)
Lemma UpdateOrderStatus_order (db : DB) (oid : Z) (st : OrderStatus) (acc : Z)
    (o : order_row) :
  find_order_by_id db oid = Some o ->
  exists o', find_order_by_id (fst (UpdateOrderStatus db oid st acc)) oid = Some o' /\
             o_user_id o' = o_user_id o.
Proof.
  intros Ho. unfold UpdateOrderStatus. rewrite Ho.
  assert (Hf : forall os, find (fun o0 => o_id o0 =? oid) (set_order_status os oid st
                 (if 0 <? acc then Some acc else None))
               = option_map (fun o0 => if o_id o0 =? oid
                   then mkOrderRow (o_id o0) (o_user_id o0) (o_number o0) st
                          (if 0 <? acc then Some acc else None) else o0)
                   (find (fun o0 => o_id o0 =? oid) os)).
  { intros os. apply find_map_same. intros x.
    destruct (o_id x =? oid) eqn:E; simpl; rewrite ?E; reflexivity. }
  destruct (0 <? acc); simpl; unfold find_order_by_id in *; simpl;
    rewrite Hf; simpl; rewrite Ho; simpl;
    apply find_some in Ho; destruct Ho as [_ Hid]; rewrite Hid;
    eexists; split; reflexivity.
Qed.

(** The effect of [UpdateOrderStatus] on the [current] of any user: the
    accrual is added to the owner's when it is positive, whatever the
    status. *)
Lemma UpdateOrderStatus_current (db : DB) (oid : Z) (st : OrderStatus) (acc : Z)
    (o : order_row) (uid : Z) :
  find_order_by_id db oid = Some o ->
  current_of (fst (UpdateOrderStatus db oid st acc)) uid =
  if (uid =? o_user_id o) && (0 <? acc)
  then option_map (fun c => c + acc) (current_of db uid)
  else current_of db uid.
Proof.
  intros Ho. unfold UpdateOrderStatus. rewrite Ho.
  destruct (0 <? acc) eqn:Ha; simpl.
  - unfold current_of, find_balance; simpl.
    unfold credit_balances. rewrite find_map_same.
    2:{ intros x. destruct (b_user_id x =? o_user_id o) eqn:E; simpl; rewrite ?E; reflexivity. }
    destruct (find (fun b => b_user_id b =? uid) (balances db)) eqn:Hb; simpl;
      [|rewrite andb_true_r; destruct (uid =? o_user_id o); reflexivity].
    apply find_some in Hb. destruct Hb as [_ Hb]. apply Z.eqb_eq in Hb. subst uid.
    rewrite andb_true_r. destruct (b_user_id b =? o_user_id o); reflexivity.
  - rewrite andb_false_r. reflexivity.
Qed.

Lemma debit_not_in (bs : list balance_row) (uid sum : Z) :
  ~ In uid (map b_user_id bs) -> debit_balances bs uid sum = bs.
Proof.
  induction bs as [|b bs IH]; simpl; intros Hn; [reflexivity|].
  destruct (b_user_id b =? uid) eqn:E.
  - apply Z.eqb_eq in E. exfalso. apply Hn. left. exact E.
  - f_equal. apply IH. intros H. apply Hn. right. exact H.
Qed.

Lemma debit_ids (bs : list balance_row) (uid sum : Z) :
  map b_user_id (debit_balances bs uid sum) = map b_user_id bs.
Proof.
  induction bs as [|b bs IH]; simpl; [reflexivity|].
  destruct (b_user_id b =? uid); simpl; f_equal; exact IH.
Qed.

Lemma credit_ids (bs : list balance_row) (uid acc : Z) :
  map b_user_id (credit_balances bs uid acc) = map b_user_id bs.
Proof.
  induction bs as [|b bs IH]; simpl; [reflexivity|].
  destruct (b_user_id b =? uid); simpl; f_equal; exact IH.
Qed.

(** A debit that the row found for [uid] can pay keeps every row
    non-negative, given that [uid] has a single row. *)
Lemma debit_nonneg (bs : list balance_row) (uid sum : Z) (b : balance_row) :
  NoDup (map b_user_id bs) ->
  Forall (fun b => 0 <= b_current b) bs ->
  find (fun b => b_user_id b =? uid) bs = Some b ->
  sum <= b_current b ->
  Forall (fun b => 0 <= b_current b) (debit_balances bs uid sum).
Proof.
  induction bs as [|a bs IH]; simpl; intros Hnd Hpos Hf Hle; [constructor|].
  inversion Hnd as [|? ? Hnin Hnd']; subst.
  inversion Hpos as [|? ? Ha Hpos']; subst.
  destruct (b_user_id a =? uid) eqn:E.
  - injection Hf as <-. apply Z.eqb_eq in E. subst uid.
    rewrite debit_not_in by exact Hnin.
    constructor; [simpl; lia | exact Hpos'].
  - constructor; [exact Ha | exact (IH Hnd' Hpos' Hf Hle)].
Qed.

Lemma credit_nonneg (bs : list balance_row) (uid acc : Z) :
  0 < acc ->
  Forall (fun b => 0 <= b_current b) bs ->
  Forall (fun b => 0 <= b_current b) (credit_balances bs uid acc).
Proof.
  intros Hacc. induction 1 as [|a bs Ha _ IH]; simpl; constructor; [|exact IH].
  destruct (b_user_id a =? uid); simpl; lia.
Qed.

Lemma find_none_not_in (bs : list balance_row) (uid : Z) :
  find (fun b => b_user_id b =? uid) bs = None -> ~ In uid (map b_user_id bs).
Proof.
  intros Hn Hin. apply in_map_iff in Hin. destruct Hin as [b [Hb Hin]].
  pose proof (find_none _ _ Hn b Hin) as H. simpl in H. rewrite Hb, Z.eqb_refl in H.
  discriminate.
Qed.

(** ** C1: crediting a processed order *)

(** [UpdateOrderStatus] with a positive accrual on an existing order runs
    the credit [UPDATE] on the owner's balance. *)
Lemma UpdateOrderStatus_credit_found (db : DB) (oid : Z) (st : OrderStatus) (acc : Z)
    (o : order_row) :
  find_order_by_id db oid = Some o -> 0 < acc ->
  balances (fst (UpdateOrderStatus db oid st acc)) =
    credit_balances (balances db) (o_user_id o) acc.
Proof.
  intros Ho Hacc. unfold UpdateOrderStatus. rewrite Ho.
  replace (0 <? acc) with true by (symmetry; apply Z.ltb_lt; exact Hacc).
  reflexivity.
Qed.

(** After a verdict [INVALID] or [PROCESSED], [GetOrdersToProcess] no
    longer returns the order. *)
Lemma final_update_not_dispatched (db : DB) (oid : Z) (st : OrderStatus) (acc : Z) :
  st = OrderInvalid \/ st = OrderProcessed ->
  forall o, In o (Queries.GetOrdersToProcess (fst (UpdateOrderStatus db oid st acc))) ->
  Queries.sc_ID o <> oid.
Proof.
  intros Hst o Hin.
  assert (Hst' : Queries.is_to_process st = false) by (destruct Hst as [-> | ->]; reflexivity).
  unfold UpdateOrderStatus in Hin. destruct (find_order_by_id db oid) as [o0|] eqn:Hf.
  - assert (Hin' : In o (map Queries.scan_order
                   (filter (fun o => Queries.is_to_process (o_status o))
                   (set_order_status (orders db) oid st (if 0 <? acc then Some acc else None))))).
    { destruct (0 <? acc); exact Hin. }
    apply in_map_iff in Hin'. destruct Hin' as [r [<- Hr]].
    apply filter_In in Hr. destruct Hr as [Hr Hp].
    apply in_map_iff in Hr. destruct Hr as [r0 [<- _]].
    destruct (o_id r0 =? oid) eqn:E; simpl in *.
    + rewrite Hst' in Hp. discriminate.
    + apply Z.eqb_neq in E. exact E.
  - simpl in Hin. apply in_map_iff in Hin. destruct Hin as [r [<- Hr]].
    apply filter_In in Hr. destruct Hr as [Hr _].
    pose proof (find_none _ _ Hf r Hr) as E. simpl. apply Z.eqb_neq in E. exact E.
Qed.

(** C1 (amended): each call of [UpdateOrderStatus] on an existing order
    with accrual [acc > 0] runs [current = current + acc] on the owner's
    balance; the status of the order is not consulted, so [n] applications
    of the same verdict run this credit [n] times.  What keeps an order
    from being processed again is the dispatch query: once a verdict
    [INVALID] or [PROCESSED] has been applied, [GetOrdersToProcess] no
    longer returns the order. *)
Theorem C1_each_application_credits (n : nat) (db : DB) (oid : Z) (st : OrderStatus)
    (acc : Z) (o : order_row) :
  find_order_by_id db oid = Some o ->
  0 < acc ->
  (forall k, current_of (repeat_update (S k) db oid st acc) (o_user_id o) =
             option_map (fun c => c + acc)
               (current_of (repeat_update k db oid st acc) (o_user_id o))) /\
  balances (repeat_update n db oid st acc) =
    Nat.iter n (fun bs => credit_balances bs (o_user_id o) acc) (balances db) /\
  ((st = OrderInvalid \/ st = OrderProcessed) -> (0 < n)%nat ->
     forall sc, In sc (Queries.GetOrdersToProcess (repeat_update n db oid st acc)) ->
     Queries.sc_ID sc <> oid).
Proof.
  intros Ho Hacc.
  assert (Hown : forall k, exists o', find_order_by_id (repeat_update k db oid st acc) oid = Some o'
                                 /\ o_user_id o' = o_user_id o).
  { induction k as [|k [o' [Ho' Hu]]]; simpl.
    - exists o. split; [exact Ho | reflexivity].
    - destruct (UpdateOrderStatus_order _ _ st acc _ Ho') as [o'' [Ho'' Hu']].
      exists o''. split; [exact Ho'' | congruence]. }
  split; [|split].
  - intros k. destruct (Hown k) as [o' [Ho' Hu]]. cbn [repeat_update].
    rewrite (UpdateOrderStatus_current _ _ st acc _ (o_user_id o) Ho'), Hu, Z.eqb_refl.
    replace (0 <? acc) with true by (symmetry; apply Z.ltb_lt; exact Hacc).
    reflexivity.
  - induction n as [|n IH]; cbn [repeat_update Nat.iter]; [reflexivity|].
    destruct (Hown n) as [o' [Ho' Hu]].
    rewrite (UpdateOrderStatus_credit_found _ _ st acc o' Ho' Hacc), Hu, IH.
    reflexivity.
  - intros Hst Hn. destruct n as [|m]; [lia|]. cbn [repeat_update].
    apply final_update_not_dispatched. exact Hst.
Qed.

Lemma C1_each_application_credits_witness :
  balances (repeat_update 2 db_order 1 OrderProcessed 500) =
    Nat.iter 2 (fun bs => credit_balances bs 1 500) (balances db_order).
Proof.
  refine (proj1 (proj2 (C1_each_application_credits 2 db_order 1 OrderProcessed 500
                          (mkOrderRow 1 1 order_num OrderNew None) _ _))).
  - vm_compute. reflexivity.
  - lia.
Defined.

(** ** C3: the balance table under every store operation *)

Lemma CreateOrder_balances (db : DB) (u : Z) (n : string) :
  balances (fst (CreateOrder db u n)) = balances db.
Proof.
  unfold CreateOrder.
  destruct (find_order_by_num db n) as [o|]; [destruct (o_user_id o =? u)|];
    [reflexivity | reflexivity |].
  destruct (find_user_by_id db u); reflexivity.
Qed.

Lemma CreateUser_balances (lower : Z -> Z) (hash : string -> option string)
    (db : DB) (l : list Z) (p : string) :
  balances (fst (CreateUser lower hash db l p)) = balances db \/
  (find_balance db (users_seq db) = None /\
   balances (fst (CreateUser lower hash db l p)) = balances db ++ [mkBalance (users_seq db) 0 0]).
Proof.
  unfold CreateUser.
  destruct (hash p); [|left; reflexivity].
  destruct (find_user_by_login db (ToLower lower l)); [left; reflexivity|].
  destruct (find_user_by_id db (users_seq db)); simpl; [left; reflexivity|].
  destruct (find_balance db (users_seq db)) eqn:Hb; simpl; [left; reflexivity|].
  right. split; reflexivity.
Qed.

Lemma Withdraw_balances (db : DB) (u s : Z) (n : string) :
  balances (fst (Withdraw db u s n)) = balances db \/
  exists b, find_balance db u = Some b /\ s <= b_current b /\
            balances (fst (Withdraw db u s n)) = debit_balances (balances db) u s.
Proof.
  unfold Withdraw, current_of.
  destruct (find_balance db u) as [b|] eqn:Hb; simpl; [|left; reflexivity].
  destruct (b_current b <? s) eqn:Hlt; [left; reflexivity|].
  destruct (find_withdrawal_by_num db n); [left; reflexivity|].
  right. exists b. split; [reflexivity|]. split; [apply Z.ltb_ge; exact Hlt | reflexivity].
Qed.

Lemma UpdateOrderStatus_balances (db : DB) (oid : Z) (st : OrderStatus) (acc : Z) :
  balances (fst (UpdateOrderStatus db oid st acc)) = balances db \/
  (0 < acc /\ exists uid,
     balances (fst (UpdateOrderStatus db oid st acc)) = credit_balances (balances db) uid acc).
Proof.
  unfold UpdateOrderStatus.
  destruct (find_order_by_id db oid) as [o|]; [|left; reflexivity].
  destruct (0 <? acc) eqn:Ha; simpl; [|left; reflexivity].
  right. split; [apply Z.ltb_lt; exact Ha|]. exists (o_user_id o). reflexivity.
Qed.

(** C3 (amended): no store operation makes a [current] negative (the
    balance table keeps one row per user).  [UpdateOrderStatus] adds its
    accrual argument to the owner's [current] whenever it is positive,
    whatever the status (processing and invalid included), and changes no
    other [current]; [Withdraw] changes the table only by the debit
    [current - sum, withdrawn + sum] of one user; [CreateOrder] leaves it
    unchanged and [CreateUser] only appends a zero row. *)
Theorem C3_balance_changes (lower : Z -> Z) (hash : string -> option string) :
  (forall db op, balances_ok db -> balances_ok (store_step lower hash db op)) /\
  (forall db oid st acc o uid,
     find_order_by_id db oid = Some o ->
     current_of (fst (UpdateOrderStatus db oid st acc)) uid =
     if (uid =? o_user_id o) && (0 <? acc)
     then option_map (fun c => c + acc) (current_of db uid)
     else current_of db uid) /\
  (forall db u s n,
     balances (fst (Withdraw db u s n)) = balances db \/
     balances (fst (Withdraw db u s n)) = debit_balances (balances db) u s) /\
  (forall db u n, balances (fst (CreateOrder db u n)) = balances db) /\
  (forall db l p,
     balances (fst (CreateUser lower hash db l p)) = balances db \/
     exists id, balances (fst (CreateUser lower hash db l p)) =
                balances db ++ [mkBalance id 0 0]).
Proof.
  split; [|split; [|split; [|split]]].
  - intros db op [Hnd Hpos].
    destruct op as [l p|u n|u s n|oid st acc]; simpl.
    + destruct (CreateUser_balances lower hash db l p) as [E|[Hn E]];
        unfold balances_ok; rewrite E; [split; assumption|].
      split.
      * rewrite map_app. apply NoDup_app; [exact Hnd | repeat constructor; simpl; tauto |].
        intros a Ha [Hb|[]]. simpl in Hb. subst a.
        exact (find_none_not_in _ _ Hn Ha).
      * apply Forall_app. split; [exact Hpos | repeat constructor; simpl; lia].
    + unfold balances_ok. rewrite CreateOrder_balances. split; assumption.
    + destruct (Withdraw_balances db u s n) as [E|[b [Hb [Hle E]]]];
        unfold balances_ok; rewrite E; [split; assumption|].
      split; [rewrite debit_ids; exact Hnd | exact (debit_nonneg _ _ _ _ Hnd Hpos Hb Hle)].
    + destruct (UpdateOrderStatus_balances db oid st acc) as [E|[Ha [uid E]]];
        unfold balances_ok; rewrite E; [split; assumption|].
      split; [rewrite credit_ids; exact Hnd | exact (credit_nonneg _ _ _ Ha Hpos)].
  - intros db oid st acc o uid Ho. exact (UpdateOrderStatus_current db oid st acc o uid Ho).
  - intros db u s n. destruct (Withdraw_balances db u s n) as [E|[b [_ [_ E]]]];
      [left | right]; exact E.
  - exact CreateOrder_balances.
  - intros db l p. destruct (CreateUser_balances lower hash db l p) as [E|[_ E]];
      [left; exact E | right; eexists; exact E].
Qed.

Lemma C3_balance_changes_witness :
  balances_ok (store_step Unicode.go_to_lower hash_stub db_order
                 (OpUpdateOrderStatus 1 OrderInvalid 5)) /\
  current_of (fst (UpdateOrderStatus db_order 1 OrderInvalid 5)) 1 =
  option_map (fun c => c + 5) (current_of db_order 1).
Proof.
  split.
  - apply (proj1 (C3_balance_changes Unicode.go_to_lower hash_stub)).
    split; vm_compute;
      [constructor; [simpl; tauto | constructor] | constructor; [discriminate | constructor]].
  - apply (proj1 (proj2 (C3_balance_changes Unicode.go_to_lower hash_stub))
             db_order 1 OrderInvalid 5 (mkOrderRow 1 1 order_num OrderNew None) 1).
    vm_compute. reflexivity.
Defined.

(** ** C4: withdrawals *)

(** C4 (amended): for a user with a balance row, [Withdraw] fails with
    [ErrInsufficientFunds] exactly when [current < sum] (also when the
    order number is already used); when [current >= sum] it fails with the
    reused-number error [ErrOrderNumUsed] if a withdrawal already has the
    number, and otherwise succeeds, records the withdrawal and sets the row
    to [current - sum], [withdrawn + sum]; on every failure the balances and
    the withdrawals are unchanged. *)
Theorem C4_withdraw_outcomes (db : DB) (uid sum : Z) (num : string) (b : balance_row) :
  find_balance db uid = Some b ->
  let '(db', err) := Withdraw db uid sum num in
  (err = Some ErrInsufficientFunds <-> b_current b < sum) /\
  (sum <= b_current b -> find_withdrawal_by_num db num <> None ->
     err = Some ErrOrderNumUsed) /\
  (sum <= b_current b -> find_withdrawal_by_num db num = None ->
     err = None /\
     find_balance db' uid = Some (mkBalance uid (b_current b - sum) (b_withdrawn b + sum)) /\
     withdrawals db' = withdrawals db ++ [mkWithdrawal (withdrawals_seq db) uid num sum]) /\
  (err <> None -> balances db' = balances db /\ withdrawals db' = withdrawals db).
Proof.
  intros Hb. unfold Withdraw, current_of. rewrite Hb. simpl.
  destruct (b_current b <? sum) eqn:Hlt.
  - apply Z.ltb_lt in Hlt.
    split; [split; [intros _; exact Hlt | reflexivity]|].
    split; [intros Hle; lia|]. split; [intros Hle; lia|].
    intros _. split; reflexivity.
  - apply Z.ltb_ge in Hlt.
    destruct (find_withdrawal_by_num db num) as [w|] eqn:Hw.
    + split; [split; [discriminate | intros H; lia]|].
      split; [intros _ _; reflexivity|]. split; [intros _ H; discriminate|].
      intros _. split; reflexivity.
    + split; [split; [discriminate | intros H; lia]|].
      split; [intros _ H; exfalso; apply H; reflexivity|].
      split; [|intros H; exfalso; apply H; reflexivity].
      intros _ _. split; [reflexivity|]. split; [|reflexivity].
      unfold find_balance, debit_balances. simpl.
      rewrite find_map_same.
      2:{ intros x. destruct (b_user_id x =? uid) eqn:E; simpl; rewrite ?E; reflexivity. }
      unfold find_balance in Hb. rewrite Hb. simpl.
      apply find_some in Hb. destruct Hb as [_ Hid]. rewrite Hid.
      apply Z.eqb_eq in Hid. rewrite Hid. reflexivity.
Qed.

Lemma C4_withdraw_outcomes_witness :
  snd (Withdraw db_rich 1 150 "12345678903") = Some ErrInsufficientFunds /\
  find_balance (fst (Withdraw db_rich 1 60 "55555555554")) 1 = Some (mkBalance 1 40 160).
Proof.
  pose proof (C4_withdraw_outcomes db_rich 1 150 "12345678903" (mkBalance 1 100 100)
                eq_refl) as H1.
  pose proof (C4_withdraw_outcomes db_rich 1 60 "55555555554" (mkBalance 1 100 100)
                eq_refl) as H2.
  destruct (Withdraw db_rich 1 150 "12345678903") as [db1 err1].
  destruct (Withdraw db_rich 1 60 "55555555554") as [db2 err2].
  simpl in H1, H2. split.
  - apply (proj2 (proj1 H1)). lia.
  - destruct H2 as [_ [_ [H2 _]]].
    destruct (H2 ltac:(lia) ltac:(vm_compute; reflexivity)) as [_ [Hb _]].
    exact Hb.
Defined.

(** ** C2: the shared rate-limit deadline *)

(** C2 (amended): on every throttled answer whose [Retry-After] parses, the
    shared deadline becomes [now + retryAfter], whatever its value before:
    it is overwritten, not advanced monotonically. *)
Theorem C2_deadline_overwritten (ParseDuration : string -> option Z) (now rle : Z)
    (num : string) (resp : HttpResponse) (d : Z) :
  StatusCode resp = StatusTooManyRequests ->
  ParseDuration (RetryAfter resp ++ "s")%string = Some d ->
  fetchOrderStatus ParseDuration now rle num (Some resp) = (FetchErrReqLimit, now + d).
Proof.
  intros Hs Hd. unfold fetchOrderStatus. rewrite Hs, Z.eqb_refl, Hd. reflexivity.
Qed.

Lemma C2_deadline_overwritten_witness :
  fetchOrderStatus ParseSeconds 10 100 "12345678903" (Some (mkHttpResponse 429 "5" None))
  = (FetchErrReqLimit, 15).
Proof.
  apply (C2_deadline_overwritten ParseSeconds 10 100 "12345678903"
           (mkHttpResponse 429 "5" None) 5); reflexivity.
Defined.

(** ** C7: from the service answer to the store update *)

(** C7: the worker translates the external statuses [REGISTERED] and
    [PROCESSING] to [PROCESSING], [INVALID] to [INVALID], [PROCESSED] to
    [PROCESSED]; a 204 answer ("order not registered") is the result
    [INVALID] with accrual 0; a 200 answer is its decoded body; and a fetch
    that yields a result [r] leads to [UpdateOrderStatus(order.ID,
    orderStatusOf r.Status, r.Accrual)]. *)
Theorem C7_verdict_translation :
  (orderStatusOf OrderAccRegistered = OrderProcessing /\
   orderStatusOf OrderAccProcessing = OrderProcessing /\
   orderStatusOf OrderAccInvalid = OrderInvalid /\
   orderStatusOf OrderAccProcessed = OrderProcessed) /\
  (forall PD now rle num rt b,
     fetchOrderStatus PD now rle num (Some (mkHttpResponse StatusNoContent rt b)) =
     (FetchOk (mkAccrualResultRes num OrderAccInvalid 0), rle)) /\
  (forall PD now rle num rt r,
     fetchOrderStatus PD now rle num (Some (mkHttpResponse StatusOK rt (Some r))) =
     (FetchOk r, rle)) /\
  (forall PD order rle a rest r rle',
     (0 <? rle - at_now a) && cancel_in_sleep a = false ->
     fetchOrderStatus PD (Z.max (at_now a) rle) rle (Number order) (response a) =
       (FetchOk r, rle') ->
     process_order PD order rle (a :: rest) =
     ([CVerdict], Applied (ID order) (orderStatusOf (res_Status r)) (res_Accrual r), rle', rest)).
Proof.
  split; [repeat split|]. split; [reflexivity|]. split; [reflexivity|].
  intros PD order rle a rest r rle' Hs Hf. simpl. rewrite Hs, Hf. reflexivity.
Qed.

Lemma C7_verdict_translation_witness :
  process_order ParseSeconds (mkOrder 7 1 "79927398713" OrderNew) 0
    [mkAttempt 3 false (Some (mkHttpResponse 204 "" None))] =
  ([CVerdict], Applied 7 OrderInvalid 0, 0, []).
Proof.
  apply (proj2 (proj2 (proj2 C7_verdict_translation)) ParseSeconds
           (mkOrder 7 1 "79927398713" OrderNew) 0
           (mkAttempt 3 false (Some (mkHttpResponse 204 "" None))) []
           (mkAccrualResultRes "79927398713" OrderAccInvalid 0) 0);
    reflexivity.
Defined.

(** ** C6: retry on throttling, abandon on other errors *)

(** The fetches of one order: some rate-limited ones, then a transient
    error (the order is abandoned), a result (the update is issued), or
    nothing more (the worker stopped in its sleep, or no further pass). *)
Lemma process_order_shape (PD : string -> option Z) (order : Order) (rle : Z)
    (atts : list Attempt) :
  let '(log, out, _, _) := process_order PD order rle atts in
  exists k,
    (log = repeat CRateLimited k ++ [CTransient] /\ out = Abandoned) \/
    (log = repeat CRateLimited k ++ [CVerdict] /\
       exists oid st acc, out = Applied oid st acc) \/
    (log = repeat CRateLimited k /\ (out = WorkerStopped \/ out = NoMoreAttempts)).
Proof.
  revert rle. induction atts as [|a rest IH]; intros rle; simpl.
  - exists O. right. right. split; [reflexivity | right; reflexivity].
  - destruct ((0 <? rle - at_now a) && cancel_in_sleep a).
    + exists O. right. right. split; [reflexivity | left; reflexivity].
    + destruct (fetchOrderStatus PD (Z.max (at_now a) rle) rle (Number order) (response a))
        as [[r| |] rle1].
      * exists O. right. left. split; [reflexivity|]. do 3 eexists. reflexivity.
      * specialize (IH rle1).
        destruct (process_order PD order rle1 rest) as [[[log out] rle2] rest2].
        destruct IH as [k [[-> ->]|[[-> Hout]|[-> Hout]]]]; exists (S k);
          [left | right; left | right; right]; split; try reflexivity; assumption.
      * exists O. left. split; reflexivity.
Qed.

Lemma log_ok_rl_run (k n : nat) (L : list (nat * FetchClass)) :
  log_ok L -> starts_at n L ->
  log_ok (map (fun c => (n, c)) (repeat CRateLimited k) ++ L) /\
  starts_at n (map (fun c => (n, c)) (repeat CRateLimited k) ++ L).
Proof.
  intros HL Hs. induction k as [|k [IH _]]; simpl; [split; assumption|].
  split; [|reflexivity].
  destruct (map (fun c => (n, c)) (repeat CRateLimited k) ++ L) as [|[j c] L'] eqn:E;
    [exact I|].
  split; [|exact IH].
  destruct k; simpl in E; [rewrite E in Hs; exact Hs | injection E; intros; congruence].
Qed.

Lemma log_ok_block (k n : nat) (c : FetchClass) (L : list (nat * FetchClass)) :
  c <> CRateLimited -> log_ok L -> starts_at (S n) L ->
  log_ok (map (fun c => (n, c)) (repeat CRateLimited k ++ [c]) ++ L) /\
  starts_at n (map (fun c => (n, c)) (repeat CRateLimited k ++ [c]) ++ L).
Proof.
  intros Hc HL Hs. rewrite map_app, <- app_assoc.
  apply log_ok_rl_run; simpl.
  - destruct L as [|[j d] L']; [exact I|].
    split; [destruct c; [contradiction | exact Hs | exact Hs] | exact HL].
  - reflexivity.
Qed.

Lemma log_ok_rl_only (k n : nat) :
  log_ok (map (fun c => (n, c)) (repeat CRateLimited k)) /\
  starts_at n (map (fun c => (n, c)) (repeat CRateLimited k)).
Proof.
  pose proof (log_ok_rl_run k n [] I I) as H. rewrite app_nil_r in H. exact H.
Qed.

(** The log of a worker: each fetch after a rate-limited one is for the
    same channel item, each fetch after a transient error or a result is
    for the next item. *)
Lemma worker_log_ok (PD : string -> option Z) (recv : list bool) (ch : list Order)
    (n : nat) (rle : Z) (atts : list Attempt) :
  log_ok (fst (worker PD n recv ch rle atts)) /\
  starts_at n (fst (worker PD n recv ch rle atts)).
Proof.
  revert n ch rle atts.
  induction recv as [|b recv IH]; intros n ch rle atts; simpl; [split; exact I|].
  destruct b; [split; exact I|].
  destruct ch as [|order ch]; [split; exact I|].
  pose proof (process_order_shape PD order rle atts) as Hshape.
  destruct (process_order PD order rle atts) as [[[log out] rle1] rest].
  destruct Hshape as [k [[-> ->]|[[-> [oid [st [acc ->]]]]|[-> [-> | ->]]]]].
  - specialize (IH (S n) ch rle1 rest).
    destruct (worker PD (S n) recv ch rle1 rest) as [log' calls']. destruct IH as [IH1 IH2].
    apply log_ok_block; [discriminate | exact IH1 | exact IH2].
  - specialize (IH (S n) ch rle1 rest).
    destruct (worker PD (S n) recv ch rle1 rest) as [log' calls']. destruct IH as [IH1 IH2].
    apply log_ok_block; [discriminate | exact IH1 | exact IH2].
  - apply log_ok_rl_only.
  - apply log_ok_rl_only.
Qed.

(** How the handling of one order can end: a stop in the sleep happens
    only on cancellation, and running out of passes uses all of them. *)
Lemma process_order_stops (PD : string -> option Z) (order : Order) :
  forall atts rle log out rle' rest',
  process_order PD order rle atts = (log, out, rle', rest') ->
  (out = WorkerStopped -> exists a, In a atts /\ cancel_in_sleep a = true) /\
  (out = NoMoreAttempts -> rest' = []).
Proof.
  induction atts as [|a atts IH]; intros rle log out rle' rest' H; simpl in H.
  - injection H as <- <- <- <-. split; [discriminate | reflexivity].
  - destruct ((0 <? rle - at_now a) && cancel_in_sleep a) eqn:Ec.
    + injection H as <- <- <- <-. split; [|discriminate].
      intros _. exists a. split; [left; reflexivity|].
      apply andb_prop in Ec. exact (proj2 Ec).
    + destruct (fetchOrderStatus PD (Z.max (at_now a) rle) rle (Number order) (response a))
        as [[r| |] rle1].
      * injection H as <- <- <- <-. split; discriminate.
      * destruct (process_order PD order rle1 atts) as [[[l o] r2] r3] eqn:E.
        injection H as <- <- <- <-. destruct (IH _ _ _ _ _ E) as [H1 H2].
        split; [|exact H2].
        intros Hw. destruct (H1 Hw) as [a' [Hin Hc]].
        exists a'. split; [right; exact Hin | exact Hc].
      * injection H as <- <- <- <-. split; discriminate.
Qed.

(** C6: after a rate-limited fetch (a 429 answer with a [Retry-After]
    duration) the worker fetches the same order again on its next pass,
    with no bound on the number of passes; after a transient error it
    abandons the order at once.  The handling of an order is a run of
    rate-limited fetches ended by a transient error (abandoned), a result
    (the update is issued), a stop in the sleep (only on cancellation) or
    the end of the passes; in the worker's log each fetch after a
    rate-limited one is for the same channel item, and each fetch after a
    transient error or a result is for the next item, so an abandoned
    order is not fetched again by this worker. *)
Theorem C6_retry_policy (PD : string -> option Z) :
  (forall order rle a rest rle1 log out rle' rest',
     (rle - at_now a <= 0 \/ cancel_in_sleep a = false) ->
     fetchOrderStatus PD (Z.max (at_now a) rle) rle (Number order) (response a) =
       (FetchErrReqLimit, rle1) ->
     process_order PD order rle1 rest = (log, out, rle', rest') ->
     process_order PD order rle (a :: rest) = (CRateLimited :: log, out, rle', rest')) /\
  (forall order rle a rest rle1,
     (rle - at_now a <= 0 \/ cancel_in_sleep a = false) ->
     fetchOrderStatus PD (Z.max (at_now a) rle) rle (Number order) (response a) =
       (FetchErr, rle1) ->
     process_order PD order rle (a :: rest) = ([CTransient], Abandoned, rle1, rest)) /\
  (forall order rle atts log out rle' rest',
     process_order PD order rle atts = (log, out, rle', rest') ->
     (out = WorkerStopped -> exists a, In a atts /\ cancel_in_sleep a = true) /\
     (out = NoMoreAttempts -> rest' = []) /\
     exists k,
       (log = repeat CRateLimited k ++ [CTransient] /\ out = Abandoned) \/
       (log = repeat CRateLimited k ++ [CVerdict] /\
          exists oid st acc, out = Applied oid st acc) \/
       (log = repeat CRateLimited k /\ (out = WorkerStopped \/ out = NoMoreAttempts))) /\
  (forall recv ch n rle atts,
     log_ok (fst (worker PD n recv ch rle atts)) /\
     starts_at n (fst (worker PD n recv ch rle atts))).
Proof.
  assert (Hawake : forall rle a, (rle - at_now a <= 0 \/ cancel_in_sleep a = false) ->
                     (0 <? rle - at_now a) && cancel_in_sleep a = false).
  { intros rle a [Hs | ->]; [|apply andb_false_r].
    replace (0 <? rle - at_now a) with false by (symmetry; apply Z.ltb_ge; lia).
    reflexivity. }
  split; [|split; [|split]].
  - intros order rle a rest rle1 log out rle' rest' Hs Hf Hp.
    cbn [process_order]. rewrite (Hawake rle a Hs), Hf. cbn. rewrite Hp. reflexivity.
  - intros order rle a rest rle1 Hs Hf.
    cbn [process_order]. rewrite (Hawake rle a Hs), Hf. reflexivity.
  - intros order rle atts log out rle' rest' H.
    destruct (process_order_stops PD order atts rle log out rle' rest' H) as [H1 H2].
    split; [exact H1 | split; [exact H2|]].
    pose proof (process_order_shape PD order rle atts) as Hs. rewrite H in Hs. exact Hs.
  - intros recv ch n rle atts. apply worker_log_ok.
Qed.

(** A run of one worker over two channel items: the first is throttled
    twice and then fails, the second gets its result. *)
Example worker_run :
  fst (worker ParseSeconds 0 [false; false; false]
         [mkOrder 1 1 "79927398713" OrderNew; mkOrder 2 1 "12345678903" OrderNew] 0
         [mkAttempt 0 false (Some (mkHttpResponse 429 "30" None));
          mkAttempt 5 false (Some (mkHttpResponse 429 "30" None));
          mkAttempt 40 false (Some (mkHttpResponse 500 "" None));
          mkAttempt 41 false (Some (mkHttpResponse 204 "" None))])
  = [(0%nat, CRateLimited); (0%nat, CRateLimited); (0%nat, CTransient); (1%nat, CVerdict)].
Proof. reflexivity. Qed.

(** ** C9: recorded withdrawals are positive *)

Lemma Withdraw_withdrawals (db : DB) (u s : Z) (n : string) :
  withdrawals (fst (Withdraw db u s n)) = withdrawals db \/
  withdrawals (fst (Withdraw db u s n)) =
    withdrawals db ++ [mkWithdrawal (withdrawals_seq db) u n s].
Proof.
  unfold Withdraw.
  destruct (current_of db u) as [c|]; [|left; reflexivity].
  destruct (c <? s); [left; reflexivity|].
  destruct (find_withdrawal_by_num db n); [left; reflexivity | right; reflexivity].
Qed.

(** C9: a withdraw request either records nothing or records one
    withdrawal, for the requesting user, with a sum [> 0]: the handler
    answers 400 to a sum [<= 0] before calling the store. *)
Theorem C9_recorded_withdrawals_positive (IsValidOrderNum : string -> bool) (db : DB)
    (userID : Z) (isJSON : bool) (body : option Handlers.WithdrawReq) :
  let db' := fst (Handlers.UserHandler_Withdraw IsValidOrderNum db userID isJSON body) in
  withdrawals db' = withdrawals db \/
  exists w, withdrawals db' = withdrawals db ++ [w] /\ 0 < w_sum w /\ w_user_id w = userID.
Proof.
  unfold Handlers.UserHandler_Withdraw.
  destruct (negb isJSON); [left; reflexivity|].
  destruct body as [[num sum]|]; [|left; reflexivity]. simpl.
  destruct (String.eqb num "" || negb (IsValidOrderNum num)); [left; reflexivity|].
  destruct (sum <=? 0) eqn:Hs; [left; reflexivity|]. apply Z.leb_gt in Hs.
  pose proof (Withdraw_withdrawals db userID sum num) as Hw.
  destruct (Withdraw db userID sum num) as [db1 err]. simpl in Hw.
  assert (Hres : withdrawals db1 = withdrawals db \/
                 exists w, withdrawals db1 = withdrawals db ++ [w] /\ 0 < w_sum w /\
                           w_user_id w = userID).
  { destruct Hw as [Hw|Hw]; [left; exact Hw | right; eexists; split; [exact Hw|]].
    simpl. split; [exact Hs | reflexivity]. }
  destruct err as [[]|]; exact Hres.
Qed.

(** ** C10: logins are compared after [strings.ToLower] *)

(** C10 (amended): two logins with the same [strings.ToLower] image denote
    one account: once the first is registered, registering the second
    fails with [ErrLoginTaken] (when its password hashes) and looking the
    second up finds the first account. *)
Theorem C10_same_lowercase_same_account (lower : Z -> Z) (hash : string -> option string)
    (db db1 : DB) (a b : list Z) (pw1 pw2 h : string) (id : Z) :
  ToLower lower a = ToLower lower b ->
  CreateUser lower hash db a pw1 = (db1, (id, None)) ->
  hash pw2 = Some h ->
  snd (CreateUser lower hash db1 b pw2) = (0, Some ErrLoginTaken) /\
  exists u, GetUserByLogin lower db1 b = inl u /\ u_id u = id.
Proof.
  intros Hab Hc Hh.
  unfold CreateUser in Hc.
  destruct (hash pw1) as [p|]; [|discriminate].
  destruct (find_user_by_login db (ToLower lower a)) eqn:Hf; [discriminate|].
  destruct (isSome (find_user_by_id db (users_seq db))); [discriminate|].
  destruct (isSome (find_balance db (users_seq db))); [discriminate|].
  injection Hc as <- <-.
  assert (Hfind : find_user_by_login
                    (mkDB (users db ++ [mkUser (users_seq db) (ToLower lower a) p])
                       (orders db) (withdrawals db) (balances db ++ [mkBalance (users_seq db) 0 0])
                       (users_seq db + 1) (orders_seq db) (withdrawals_seq db))
                    (ToLower lower b) = Some (mkUser (users_seq db) (ToLower lower a) p)).
  { unfold find_user_by_login. simpl. apply find_app_r.
    - rewrite <- Hab. exact Hf.
    - simpl. rewrite Hab. apply runes_eqb_refl. }
  split.
  - unfold CreateUser. rewrite Hh. simpl. rewrite Hfind. reflexivity.
  - eexists. split; [unfold GetUserByLogin; rewrite Hfind; reflexivity | reflexivity].
Qed.

Lemma C10_same_lowercase_same_account_witness :
  snd (CreateUser Unicode.go_to_lower hash_stub db_alice [65; 108; 105; 99; 101] "pw")
  = (0, Some ErrLoginTaken).
Proof.
  apply (proj1 (C10_same_lowercase_same_account Unicode.go_to_lower hash_stub empty_db
                  db_alice alice [65; 108; 105; 99; 101] "secret" "pw" "bcrypt:pw" 1
                  eq_refl eq_refl eq_refl)).
Defined.

(** On a started agent, [StopAgent] returns with no goroutine left in the
    wait group, and a second [StopAgent] returns the agent unchanged. *)
Lemma StopAgent_started (aa : AccrualAgent) :
  exists aa', StopAgent (StartAgent aa) = Returned aa' /\ wg aa' = O /\
              StopAgent aa' = Returned aa'.
Proof. eexists. split; [reflexivity | split; reflexivity]. Qed.

(* ================================================================== *)
(** * Further properties of the store, the agent and the handlers *)

Import Queries Dispatch StoreRuns.

(** ** Store operations and the read methods *)

(** An order given the verdict [INVALID] or [PROCESSED] is no longer
    returned by [GetOrdersToProcess], so the dispatch loop stops sending
    it. *)
Theorem UpdateOrderStatus_leaves_dispatch (db : DB) (oid : Z) (st : OrderStatus) (acc : Z) :
  st = OrderInvalid \/ st = OrderProcessed ->
  forall o, In o (GetOrdersToProcess (fst (UpdateOrderStatus db oid st acc))) -> sc_ID o <> oid.
Proof. exact (final_update_not_dispatched db oid st acc). Qed.

Lemma UpdateOrderStatus_leaves_dispatch_witness :
  ~ In 1 (map sc_ID (GetOrdersToProcess (fst (UpdateOrderStatus db_order 1 OrderProcessed 500)))).
Proof.
  intros Hin. apply in_map_iff in Hin. destruct Hin as [o [Ho Hin]].
  exact (UpdateOrderStatus_leaves_dispatch db_order 1 OrderProcessed 500
           (or_intror eq_refl) o Hin Ho).
Defined.

(** A successful [CreateOrder] makes the order readable by number, listed
    among its owner's orders and among the orders to process, with status
    [NEW] and accrual 0. *)
Theorem CreateOrder_visible (db : DB) (u : Z) (n : string) (id : Z) :
  snd (CreateOrder db u n) = (id, None) ->
  GetOrderByNum (fst (CreateOrder db u n)) n = inl (mkOrderScan id u n OrderNew 0) /\
  In (mkOrderScan id u n OrderNew 0) (GetUserOrders (fst (CreateOrder db u n)) u) /\
  In (mkOrderScan id u n OrderNew 0) (GetOrdersToProcess (fst (CreateOrder db u n))).
Proof.
  unfold CreateOrder. intros H.
  destruct (find_order_by_num db n) as [o|] eqn:Hf;
    [destruct (o_user_id o =? u); discriminate|].
  destruct (find_user_by_id db u); [|discriminate].
  simpl in H. injection H as <-. simpl.
  split; [|split].
  - unfold GetOrderByNum, find_order_by_num. simpl.
    rewrite (find_app_r _ _ _ Hf) by (simpl; apply String.eqb_refl). reflexivity.
  - unfold GetUserOrders. simpl. rewrite filter_app, map_app. apply in_or_app.
    right. simpl. rewrite Z.eqb_refl. left. reflexivity.
  - unfold GetOrdersToProcess. simpl. rewrite filter_app, map_app. apply in_or_app.
    right. left. reflexivity.
Qed.

Lemma CreateOrder_visible_witness :
  GetOrderByNum db_order order_num = inl (mkOrderScan 1 1 order_num OrderNew 0).
Proof. exact (proj1 (CreateOrder_visible db_alice 1 order_num 1 eq_refl)). Defined.

(** [UpdateOrderStatus] writes the status and the accrual of the order,
    the accrual as [NULL] when it is not positive; with such an accrual no
    balance changes. *)
Theorem UpdateOrderStatus_sets_row (db : DB) (oid : Z) (st : OrderStatus) (acc : Z)
    (o : order_row) :
  find_order_by_id db oid = Some o ->
  find_order_by_id (fst (UpdateOrderStatus db oid st acc)) oid =
    Some (mkOrderRow (o_id o) (o_user_id o) (o_number o) st
            (if 0 <? acc then Some acc else None)) /\
  (acc <= 0 -> balances (fst (UpdateOrderStatus db oid st acc)) = balances db).
Proof.
  intros Ho.
  assert (Hid : (o_id o =? oid) = true) by exact (proj2 (find_some _ _ Ho)).
  assert (Hf : forall os, find (fun o0 => o_id o0 =? oid) (set_order_status os oid st
                 (if 0 <? acc then Some acc else None))
               = option_map (fun o0 => if o_id o0 =? oid
                   then mkOrderRow (o_id o0) (o_user_id o0) (o_number o0) st
                          (if 0 <? acc then Some acc else None) else o0)
                   (find (fun o0 => o_id o0 =? oid) os)).
  { intros os. apply find_map_same. intros x.
    destruct (o_id x =? oid) eqn:E; simpl; rewrite ?E; reflexivity. }
  unfold UpdateOrderStatus. rewrite Ho. split.
  - unfold find_order_by_id in *.
    destruct (0 <? acc); simpl; rewrite Hf; simpl; rewrite Ho; simpl; rewrite Hid; reflexivity.
  - intros Hle. assert (E : (0 <? acc) = false) by (apply Z.ltb_ge; exact Hle).
    rewrite E. reflexivity.
Qed.

Lemma UpdateOrderStatus_sets_row_witness :
  balances (fst (UpdateOrderStatus db_order 1 OrderProcessing 0)) = balances db_order.
Proof.
  apply (proj2 (UpdateOrderStatus_sets_row db_order 1 OrderProcessing 0
                  (mkOrderRow 1 1 order_num OrderNew None) eq_refl)).
  lia.
Defined.

(** After a successful [Withdraw], [GetWithdrawals] returns for the user
    the rows it returned before plus the new withdrawal, in some order; for
    every other user it returns the same rows as before. *)
Theorem Withdraw_listed (db : DB) (u s : Z) (n : string) :
  snd (Withdraw db u s n) = None ->
  forall v, Permutation (GetWithdrawals (fst (Withdraw db u s n)) v)
              (GetWithdrawals db v ++
                 (if v =? u then [mkWithdrawal (withdrawals_seq db) u n s] else [])).
Proof.
  unfold Withdraw. intros H v.
  destruct (current_of db u) as [c|]; [|discriminate].
  destruct (c <? s); [discriminate|].
  destruct (find_withdrawal_by_num db n); [discriminate|].
  unfold GetWithdrawals. simpl. rewrite filter_app. simpl.
  rewrite Z.eqb_sym. destruct (v =? u); apply Permutation_refl.
Qed.

Lemma Withdraw_listed_witness :
  Permutation (GetWithdrawals (fst (Withdraw db_rich 1 60 "55555555554")) 1)
    (GetWithdrawals db_rich 1 ++ [mkWithdrawal 2 1 "55555555554" 60]).
Proof. exact (Withdraw_listed db_rich 1 60 "55555555554" eq_refl 1). Defined.

(** A user created by [CreateUser] has the balance [current = 0],
    [withdrawn = 0]. *)
Theorem CreateUser_zero_balance (lower : Z -> Z) (hash : string -> option string)
    (db : DB) (l : list Z) (p : string) (id : Z) :
  snd (CreateUser lower hash db l p) = (id, None) ->
  GetUserBalance (fst (CreateUser lower hash db l p)) id = inl (0, 0).
Proof.
  unfold CreateUser. intros H.
  destruct (hash p); [|discriminate].
  destruct (find_user_by_login db (ToLower lower l)); [discriminate|].
  destruct (find_user_by_id db (users_seq db)); [discriminate|].
  destruct (find_balance db (users_seq db)) eqn:Hb; [discriminate|].
  simpl in H. injection H as <-.
  unfold GetUserBalance, find_balance. simpl.
  rewrite (find_app_r _ _ _ Hb) by (simpl; apply Z.eqb_refl). reflexivity.
Qed.

Lemma CreateUser_zero_balance_witness :
  GetUserBalance db_alice 1 = inl (0, 0).
Proof.
  exact (CreateUser_zero_balance Unicode.go_to_lower hash_stub empty_db alice "secret" 1
           eq_refl).
Defined.

(** ** The accrual agent *)

Lemma process_order_applied_id (PD : string -> option Z) (order : Order) :
  forall atts rle log oid st acc rle' rest,
  process_order PD order rle atts = (log, Applied oid st acc, rle', rest) -> oid = ID order.
Proof.
  induction atts as [|a atts IH]; intros rle log oid st acc rle' rest H; simpl in H.
  - discriminate.
  - destruct ((0 <? rle - at_now a) && cancel_in_sleep a); [discriminate|].
    destruct (fetchOrderStatus PD (Z.max (at_now a) rle) rle (Number order) (response a))
      as [[r| |] rle1].
    + injection H as _ <- _ _ _. reflexivity.
    + destruct (process_order PD order rle1 atts) as [[[l o] r2] r3] eqn:E.
      injection H as _ -> _ _. exact (IH _ _ _ _ _ _ _ E).
    + discriminate.
Qed.

Lemma is_subseq_cons_r_both (l2 : list Z) :
  (forall x l, is_subseq (x :: l) l2 = true -> is_subseq l l2 = true) /\
  (forall l1 y, is_subseq l1 l2 = true -> is_subseq l1 (y :: l2) = true).
Proof.
  induction l2 as [|z l2 [IHq IHp]].
  - split; [intros x l H; discriminate|].
    intros [|x l1] y H; [reflexivity | discriminate].
  - assert (Q : forall x l, is_subseq (x :: l) (z :: l2) = true -> is_subseq l (z :: l2) = true).
    { intros x l H. simpl in H. destruct (x =? z).
      - apply IHp. exact H.
      - apply IHp. apply (IHq x). exact H. }
    split; [exact Q|].
    intros [|x l1] y H; [reflexivity|].
    simpl. destruct (x =? y); [apply (Q x); exact H | exact H].
Qed.

Lemma is_subseq_cons_r (l1 l2 : list Z) (y : Z) :
  is_subseq l1 l2 = true -> is_subseq l1 (y :: l2) = true.
Proof. apply (proj2 (is_subseq_cons_r_both l2)). Qed.

(** Only a 429 answer whose [Retry-After] parses moves the rate-limit
    deadline: every other result of [fetchOrderStatus] leaves it as it
    was. *)
Theorem fetchOrderStatus_deadline_only_on_limit (PD : string -> option Z)
    (now rle : Z) (num : string) (res : option HttpResponse) :
  fst (fetchOrderStatus PD now rle num res) <> FetchErrReqLimit ->
  snd (fetchOrderStatus PD now rle num res) = rle.
Proof.
  intros H. unfold fetchOrderStatus in *.
  destruct res as [r|]; [|reflexivity].
  destruct (StatusCode r =? StatusTooManyRequests).
  - destruct (PD (RetryAfter r ++ "s")%string); [exfalso; apply H; reflexivity | reflexivity].
  - destruct (StatusCode r =? StatusNoContent); [reflexivity|].
    destruct (negb (StatusCode r =? StatusOK)); [reflexivity|].
    destruct (Body r); reflexivity.
Qed.

Lemma fetchOrderStatus_deadline_only_on_limit_witness :
  snd (fetchOrderStatus ParseSeconds 100 130 order_num
         (Some (mkHttpResponse 500 "" None))) = 130.
Proof.
  apply fetchOrderStatus_deadline_only_on_limit. simpl. discriminate.
Defined.

(** A 429 answer whose [Retry-After] does not parse as a duration is not
    retried: the worker abandons the order after that one fetch, and the
    deadline is kept. *)
Theorem unparsable_retry_after_abandons (PD : string -> option Z) (order : Order)
    (rle : Z) (a : Attempt) (rest : list Attempt) (r : HttpResponse) :
  (rle - at_now a <= 0 \/ cancel_in_sleep a = false) ->
  response a = Some r ->
  StatusCode r = 429 ->
  PD (RetryAfter r ++ "s")%string = None ->
  process_order PD order rle (a :: rest) = ([CTransient], Abandoned, rle, rest).
Proof.
  intros Hs Hr Hc Hp. simpl.
  replace ((0 <? rle - at_now a) && cancel_in_sleep a) with false.
  2:{ destruct Hs as [Hs | ->]; [|symmetry; apply andb_false_r].
      replace (0 <? rle - at_now a) with false by (symmetry; apply Z.ltb_ge; lia).
      reflexivity. }
  unfold fetchOrderStatus. rewrite Hr, Hc, Hp. reflexivity.
Qed.

Lemma unparsable_retry_after_abandons_witness :
  process_order ParseSeconds (mkOrder 1 1 order_num OrderNew) 0
    [mkAttempt 10 false (Some (mkHttpResponse 429 "" None))] =
  ([CTransient], Abandoned, 0, []).
Proof.
  apply (unparsable_retry_after_abandons ParseSeconds _ 0
           (mkAttempt 10 false (Some (mkHttpResponse 429 "" None))) []
           (mkHttpResponse 429 "" None)).
  - right. reflexivity.
  - reflexivity.
  - reflexivity.
  - reflexivity.
Defined.

(** The [UpdateOrderStatus] calls of a worker are for orders it received,
    in the order received, and at most one per received order. *)
Theorem worker_calls_follow_channel (PD : string -> option Z) :
  forall recv n ch rle atts,
  is_subseq (map (fun c => fst (fst c)) (snd (worker PD n recv ch rle atts))) (map ID ch) = true.
Proof.
  induction recv as [|[|] recv IH]; intros n ch rle atts; simpl;
    [destruct (map ID ch); reflexivity | destruct (map ID ch); reflexivity|].
  destruct ch as [|order ch]; [reflexivity|].
  destruct (process_order PD order rle atts) as [[[log out] rle1] rest] eqn:E.
  destruct out as [oid st acc | | |]; simpl; try reflexivity.
  - destruct (worker PD (S n) recv ch rle1 rest) as [log' calls'] eqn:W. simpl.
    rewrite (process_order_applied_id PD order atts rle log oid st acc rle1 rest E).
    rewrite Z.eqb_refl. specialize (IH (S n) ch rle1 rest). rewrite W in IH. exact IH.
  - destruct (worker PD (S n) recv ch rle1 rest) as [log' calls'] eqn:W. simpl.
    apply is_subseq_cons_r. specialize (IH (S n) ch rle1 rest). rewrite W in IH. exact IH.
Qed.

(** ** Dispatching orders to the workers *)

Lemma push_orders_in (pick : nat -> SelectPick) :
  forall os i o, In o (fst (push_orders i pick os)) ->
  exists sc, In sc os /\ o = to_agent_order sc.
Proof.
  induction os as [|sc os IH]; intros i o H; simpl in H; [contradiction|].
  destruct (pick i); [contradiction| |contradiction].
  destruct (push_orders (S i) pick os) as [sent e] eqn:E. simpl in H.
  destruct H as [<- | H].
  - exists sc. split; [left|]; reflexivity.
  - specialize (IH (S i) o). rewrite E in IH. destruct (IH H) as [sc' [Hin ->]].
    exists sc'. split; [right; exact Hin | reflexivity].
Qed.

(** Each scheduling pass sends the orders to process in the order read,
    up to the first one for which the [select] does not pick the send on an
    open channel: what is sent is a prefix of the list.  The pass returns
    when that [select] picks [ctx.Done()], panics when it picks the send on
    the closed channel, and otherwise sends the whole list. *)
Theorem push_orders_prefix (pick : nat -> SelectPick) :
  forall os i,
  exists k,
    fst (push_orders i pick os) = map to_agent_order (firstn k os) /\
    (forall j, (j < k)%nat -> pick (i + j)%nat = PickSend) /\
    (snd (push_orders i pick os) = LoopRunning -> k = List.length os) /\
    (snd (push_orders i pick os) = LoopReturned ->
       (k < List.length os)%nat /\ pick (i + k)%nat = PickDone) /\
    (snd (push_orders i pick os) = LoopPanicked ->
       (k < List.length os)%nat /\ pick (i + k)%nat = PickClosedSend).
Proof.
  induction os as [|sc os IH]; intros i.
  - exists O. simpl. repeat split; intros; try lia; discriminate.
  - simpl. destruct (pick i) eqn:Hd.
    + exists O. simpl. repeat split; intros; try lia; try discriminate.
      rewrite Nat.add_0_r. exact Hd.
    + destruct (IH (S i)) as [k [Hs [Hj [Hf [Hr Hp]]]]].
      destruct (push_orders (S i) pick os) as [sent e]. simpl in *.
      exists (S k). simpl. rewrite Hs. split; [reflexivity|]. split; [|split; [|split]].
      * intros [|j] Hjk; [rewrite Nat.add_0_r; exact Hd|].
        rewrite <- Nat.add_succ_comm. apply Hj. lia.
      * intros He. rewrite (Hf He). reflexivity.
      * intros He. destruct (Hr He) as [Hl Hk]. split; [lia|].
        rewrite <- Nat.add_succ_comm. exact Hk.
      * intros He. destruct (Hp He) as [Hl Hk]. split; [lia|].
        rewrite <- Nat.add_succ_comm. exact Hk.
    + exists O. simpl. repeat split; intros; try lia; try discriminate.
      rewrite Nat.add_0_r. exact Hd.
Qed.

(** The dispatch loop only ever sends orders read by [GetOrdersToProcess]
    from the store, so with status [NEW] or [PROCESSING]. *)
Theorem processOrders_sends_pending (evs : list DispatchEvent) (o : Order) :
  In o (fst (processOrders evs)) ->
  is_to_process (Status o) = true /\
  exists db d sc, In (EvTick (Some db) d) evs /\ In sc (GetOrdersToProcess db) /\
                  o = to_agent_order sc.
Proof.
  revert o. induction evs as [|ev evs IH]; intros o H; simpl in H; [contradiction|].
  destruct ev as [|[db|] d]; [contradiction| |].
  - destruct (push_orders 0 d (GetOrdersToProcess db)) as [sent e] eqn:E.
    assert (Hnew : In o sent ->
              is_to_process (Status o) = true /\
              exists db0 d0 sc, In (EvTick (Some db0) d0) (EvTick (Some db) d :: evs) /\
                In sc (GetOrdersToProcess db0) /\ o = to_agent_order sc).
    { intros Hs. pose proof (push_orders_in d (GetOrdersToProcess db) 0 o) as P.
      rewrite E in P. destruct (P Hs) as [sc [Hsc ->]].
      split.
      - unfold GetOrdersToProcess in Hsc. apply in_map_iff in Hsc.
        destruct Hsc as [r [<- Hr]]. apply filter_In in Hr. exact (proj2 Hr).
      - exists db, d, sc. split; [left; reflexivity | split; [exact Hsc | reflexivity]]. }
    assert (Hold : In o (fst (processOrders evs)) ->
              is_to_process (Status o) = true /\
              exists db0 d0 sc, In (EvTick (Some db0) d0) (EvTick (Some db) d :: evs) /\
                In sc (GetOrdersToProcess db0) /\ o = to_agent_order sc).
    { intros Hs. destruct (IH o Hs) as [Hp [db0 [d0 [sc [Hin Hsc]]]]].
      split; [exact Hp|]. exists db0, d0, sc. split; [right; exact Hin | exact Hsc]. }
    destruct e; [| exact (Hnew H) | exact (Hnew H)].
    destruct (processOrders evs) as [sent' e'] eqn:E'. simpl in H.
    apply in_app_or in H. destruct H as [H | H]; [exact (Hnew H)|].
    apply Hold. exact H.
  - destruct (IH o H) as [Hp [db0 [d0 [sc [Hin Hsc]]]]].
    split; [exact Hp|]. exists db0, d0, sc. split; [right; exact Hin | exact Hsc].
Qed.

Lemma processOrders_sends_pending_witness :
  is_to_process (Status (mkOrder 1 1 order_num OrderNew)) = true.
Proof.
  refine (proj1 (processOrders_sends_pending
                   [EvTick (Some db_order) (fun _ => PickSend)] _ _)).
  vm_compute. left. reflexivity.
Defined.

(** ** The handlers *)

Lemma CreateUser_success (lower : Z -> Z) (hash : string -> option string)
    (db db1 : DB) (l : list Z) (p : string) (id : Z) :
  CreateUser lower hash db l p = (db1, (id, None)) ->
  exists h, hash p = Some h /\ id = users_seq db /\
    find_user_by_login db1 (ToLower lower l) = Some (mkUser id (ToLower lower l) h).
Proof.
  unfold CreateUser. intros H.
  destruct (hash p) as [h|]; [|discriminate].
  destruct (find_user_by_login db (ToLower lower l)) eqn:Hf; [discriminate|].
  destruct (isSome (find_user_by_id db (users_seq db))); [discriminate|].
  destruct (isSome (find_balance db (users_seq db))); [discriminate|].
  injection H as <- <-. exists h. split; [reflexivity|]. split; [reflexivity|].
  unfold find_user_by_login in *. simpl.
  apply find_app_r; [exact Hf | apply runes_eqb_refl].
Qed.

Lemma ToLower_nil (lower : Z -> Z) (l : list Z) :
  match ToLower lower l with [] => true | _ => false end =
  match l with [] => true | _ => false end.
Proof. destruct l; reflexivity. Qed.

(** After a successful registration, logging in with the same password and
    any login of the same [strings.ToLower] image succeeds (given that
    bcrypt accepts the password against its own hash); the token is built
    from the new user's id and the lowercased login. *)
Theorem register_then_login (lower : Z -> Z) (hash : string -> option string)
    (cmp : string -> string -> bool) (jwt : Z -> list Z -> option string)
    (db db1 : DB) (l l' : list Z) (pw tok : string) :
  Api.RegisterUser lower hash jwt db true (Some (Api.mkUserReq l pw)) = (db1, (200, Some tok)) ->
  (forall h, hash pw = Some h -> cmp pw h = true) ->
  ToLower lower l' = ToLower lower l ->
  Api.Login lower cmp jwt db1 true (Some (Api.mkUserReq l' pw)) =
    match jwt (users_seq db) (ToLower lower l) with
    | Some t => (200, Some t)
    | None => (500, None)
    end.
Proof.
  intros H Hcmp Hl. unfold Api.RegisterUser in H. simpl in H.
  destruct ((match l with [] => true | _ => false end) || String.eqb pw "") eqn:Hempty;
    [discriminate|].
  destruct (CreateUser lower hash db l pw) as [db' [id err]] eqn:Hc.
  destruct err as [e|]; [destruct e; discriminate|].
  destruct (jwt id l) as [t|]; [|discriminate].
  injection H as -> _. destruct (CreateUser_success _ _ _ _ _ _ _ Hc) as [h [Hh [-> Hf]]].
  unfold Api.Login. simpl.
  rewrite <- (ToLower_nil lower l'), Hl, ToLower_nil, Hempty.
  unfold GetUserByLogin. rewrite Hl, Hf. simpl. rewrite (Hcmp h Hh). reflexivity.
Qed.

Lemma register_then_login_witness :
  Api.Login Unicode.go_to_lower stub_cmp stub_jwt
    (fst (Api.RegisterUser Unicode.go_to_lower hash_stub stub_jwt empty_db true
            (Some (Api.mkUserReq [65; 108; 105; 99; 101] "secret"))))
    true (Some (Api.mkUserReq [97; 76; 73; 67; 69] "secret")) = (200, Some "token"%string).
Proof.
  exact (register_then_login Unicode.go_to_lower hash_stub stub_cmp stub_jwt empty_db _
           [65; 108; 105; 99; 101] [97; 76; 73; 67; 69] "secret" "token" eq_refl
           (fun h Hh => match Hh in _ = y return match y with Some h0 => stub_cmp "secret" h0 = true | None => True end
                        with eq_refl => eq_refl end)
           eq_refl).
Defined.

(** A successful login means the store holds a user under the lowercased
    login whose hash matches the password, and the token is built from
    that user's id and stored login. *)
Theorem Login_success (lower : Z -> Z) (cmp : string -> string -> bool)
    (jwt : Z -> list Z -> option string) (db : DB) (isJSON : bool)
    (body : option Api.UserReq) (tok : string) :
  Api.Login lower cmp jwt db isJSON body = (200, Some tok) ->
  exists req u, body = Some req /\ isJSON = true /\
    GetUserByLogin lower db (Api.req_Login req) = inl u /\
    cmp (Api.req_Password req) (u_password_hash u) = true /\
    jwt (u_id u) (u_login u) = Some tok.
Proof.
  unfold Api.Login. intros H.
  destruct isJSON; [|discriminate]. destruct body as [req|]; [|discriminate].
  simpl in H.
  destruct ((match Api.req_Login req with [] => true | _ => false end)
            || String.eqb (Api.req_Password req) ""); [discriminate|].
  destruct (GetUserByLogin lower db (Api.req_Login req)) as [u|e] eqn:Hg;
    [|destruct e; discriminate].
  destruct (cmp (Api.req_Password req) (u_password_hash u)) eqn:Hc; [|discriminate].
  simpl in H. destruct (jwt (u_id u) (u_login u)) as [t|] eqn:Hj; [|discriminate].
  injection H as ->. exists req, u. repeat split; assumption.
Qed.

Lemma Login_success_witness :
  exists req u, Some (Api.mkUserReq alice "secret") = Some req /\ true = true /\
    GetUserByLogin Unicode.go_to_lower db_alice (Api.req_Login req) = inl u /\
    stub_cmp (Api.req_Password req) (u_password_hash u) = true /\
    stub_jwt (u_id u) (u_login u) = Some "token"%string.
Proof.
  exact (Login_success Unicode.go_to_lower stub_cmp stub_jwt db_alice true
           (Some (Api.mkUserReq alice "secret")) "token" eq_refl).
Defined.

(** [CreateNewOrder] on a valid number already in the store answers 200
    when the caller owns it and 409 otherwise, and stores nothing; on a new
    number of an existing user it answers 202 and the order is listed for
    the user. *)
Theorem CreateNewOrder_codes (valid : string -> bool) (db : DB) (u : Z) (n : string) :
  valid n = true ->
  (forall o, find_order_by_num db n = Some o ->
     orders (fst (Api.CreateNewOrder valid db u true (Some n))) = orders db /\
     snd (Api.CreateNewOrder valid db u true (Some n)) = if o_user_id o =? u then 200 else 409) /\
  (find_order_by_num db n = None -> find_user_by_id db u <> None ->
     snd (Api.CreateNewOrder valid db u true (Some n)) = 202 /\
     In (mkOrderScan (orders_seq db) u n OrderNew 0)
        (GetUserOrders (fst (Api.CreateNewOrder valid db u true (Some n))) u)).
Proof.
  intros Hv. unfold Api.CreateNewOrder. simpl. rewrite Hv. simpl. split.
  - intros o Ho. unfold CreateOrder. rewrite Ho.
    destruct (o_user_id o =? u); split; reflexivity.
  - intros Hn Hu. unfold CreateOrder. rewrite Hn.
    destruct (find_user_by_id db u); [|contradiction]. simpl. split; [reflexivity|].
    unfold GetUserOrders. simpl. rewrite filter_app, map_app. apply in_or_app.
    right. simpl. rewrite Z.eqb_refl. left. reflexivity.
Qed.

Lemma CreateNewOrder_codes_witness :
  snd (Api.CreateNewOrder (fun _ => true) db_order 2 true (Some order_num)) = 409.
Proof.
  exact (proj2 (proj1 (CreateNewOrder_codes (fun _ => true) db_order 2 order_num eq_refl)
           (mkOrderRow 1 1 order_num OrderNew None) eq_refl)).
Defined.

(** [CreateOrder] for one user never changes the orders listed for
    another. *)
Theorem CreateOrder_other_user (db : DB) (u u' : Z) (n : string) :
  u' <> u -> GetUserOrders (fst (CreateOrder db u' n)) u = GetUserOrders db u.
Proof.
  intros Hne. unfold CreateOrder, GetUserOrders.
  destruct (find_order_by_num db n) as [o|].
  - destruct (o_user_id o =? u'); reflexivity.
  - destruct (find_user_by_id db u'); [|reflexivity]. simpl.
    rewrite filter_app, map_app. simpl.
    replace (u' =? u) with false by (symmetry; apply Z.eqb_neq; exact Hne).
    apply app_nil_r.
Qed.

Lemma CreateOrder_other_user_witness :
  GetUserOrders db_order 2 = GetUserOrders db_alice 2.
Proof. apply (CreateOrder_other_user db_alice 2 1 order_num). lia. Defined.

(** ** Configuration *)

(** [validateConf] accepts a configuration exactly when the accrual
    address and the database URI are both set; the server address and the
    log level are not checked. *)
Theorem validateConf_accepts (cfg : Config.ServerConf) :
  Config.validateConf cfg = None <->
  Config.AccrualAddress cfg <> ""%string /\ Config.DSN cfg <> ""%string.
Proof.
  unfold Config.validateConf.
  destruct (String.eqb (Config.AccrualAddress cfg) "") eqn:Ha;
  destruct (String.eqb (Config.DSN cfg) "") eqn:Hd; simpl;
    rewrite ?String.eqb_eq, ?String.eqb_neq in *;
    split; intros H; try discriminate; try tauto; reflexivity.
Qed.

(** ** Invariants of every run of the store *)

Lemma NoDup_snoc {A} (l : list A) (x : A) :
  NoDup l -> ~ In x l -> NoDup (l ++ [x]).
Proof.
  induction l as [|a l IH]; intros Hd Hx; simpl.
  - constructor; [intros []|constructor].
  - inversion Hd as [|a' l' Ha Hl]; subst. constructor.
    + intros Hin. apply in_app_or in Hin. destruct Hin as [Hin|[<-|[]]].
      * exact (Ha Hin).
      * apply Hx. left. reflexivity.
    + apply IH; [exact Hl|]. intros Hin. apply Hx. right. exact Hin.
Qed.

Lemma find_none_not_in_map {A B} (f : A -> B) (eqb : B -> B -> bool)
    (Hrefl : forall b, eqb b b = true) (l : list A) (x : B) :
  find (fun a => eqb (f a) x) l = None -> ~ In x (map f l).
Proof.
  intros Hf Hin. apply in_map_iff in Hin. destruct Hin as [a [Ha Hin]].
  pose proof (find_none _ _ Hf a Hin) as E. simpl in E. rewrite Ha, Hrefl in E.
  discriminate.
Qed.

Lemma set_order_status_numbers (os : list order_row) (oid : Z) (st : OrderStatus)
    (acc : option Z) :
  map o_number (set_order_status os oid st acc) = map o_number os.
Proof.
  unfold set_order_status. rewrite map_map. apply map_ext. intros o.
  destruct (o_id o =? oid); reflexivity.
Qed.

Lemma unique_step (lower : Z -> Z) (hash : string -> option string) (db : DB) (op : StoreOp) :
  unique_ok db -> unique_ok (store_step lower hash db op).
Proof.
  intros [Hu [Ho Hw]]. destruct op as [l p | u n | u s n | oid st acc]; simpl.
  - unfold CreateUser.
    destruct (hash p); [|split; auto].
    destruct (find_user_by_login db (ToLower lower l)) eqn:Hf; [split; auto|].
    destruct (isSome (find_user_by_id db (users_seq db))); [split; auto|].
    destruct (isSome (find_balance db (users_seq db))); [split; auto|].
    split; [|split; assumption]. simpl. rewrite map_app. apply NoDup_snoc; [exact Hu|].
    exact (find_none_not_in_map u_login runes_eqb runes_eqb_refl _ _ Hf).
  - unfold CreateOrder.
    destruct (find_order_by_num db n) eqn:Hf.
    + destruct (o_user_id o =? u); split; auto.
    + destruct (find_user_by_id db u); [|split; auto].
      split; [exact Hu|split; [|exact Hw]]. simpl. rewrite map_app.
      apply NoDup_snoc; [exact Ho|].
      exact (find_none_not_in_map o_number String.eqb String.eqb_refl _ _ Hf).
  - unfold Withdraw.
    destruct (current_of db u) as [c|]; [|split; auto].
    destruct (c <? s); [split; auto|].
    destruct (find_withdrawal_by_num db n) eqn:Hf; [split; auto|].
    split; [exact Hu|split; [exact Ho|]]. simpl. rewrite map_app.
    apply NoDup_snoc; [exact Hw|].
    exact (find_none_not_in_map w_number String.eqb String.eqb_refl _ _ Hf).
  - unfold UpdateOrderStatus.
    destruct (find_order_by_id db oid); [|split; auto].
    destruct (0 <? acc); unfold unique_ok; simpl; rewrite set_order_status_numbers; auto.
Qed.

Lemma unique_fold (lower : Z -> Z) (hash : string -> option string) :
  forall ops db, unique_ok db -> unique_ok (fold_left (store_step lower hash) ops db).
Proof.
  induction ops as [|op ops IH]; intros db H; simpl; [exact H|].
  apply IH. apply unique_step. exact H.
Qed.

(** Whatever sequence of operations ran, the store never holds two users
    with the same (lowercased) login, two orders with the same number or
    two withdrawals with the same number: each insert checks its unique
    column first. *)
Theorem run_store_unique (lower : Z -> Z) (hash : string -> option string)
    (ops : list StoreOp) :
  unique_ok (run_store lower hash ops).
Proof.
  apply unique_fold. split; [|split]; constructor.
Qed.

Lemma find_balance_in (db : DB) (uid : Z) (b : balance_row) :
  find_balance db uid = Some b -> In uid (map b_user_id (balances db)).
Proof.
  intros Hf. destruct (find_some _ _ Hf) as [Hin Heq].
  apply Z.eqb_eq in Heq. rewrite <- Heq. apply in_map. exact Hin.
Qed.

Lemma owned_mono (db db' : DB) :
  withdrawals db' = withdrawals db ->
  (forall x, In x (map b_user_id (balances db)) -> In x (map b_user_id (balances db'))) ->
  withdrawals_owned db -> withdrawals_owned db'.
Proof.
  intros Hw Hids H w Hin. apply Hids. apply H. rewrite <- Hw. exact Hin.
Qed.

Lemma owned_step (lower : Z -> Z) (hash : string -> option string) (db : DB) (op : StoreOp) :
  withdrawals_owned db -> withdrawals_owned (store_step lower hash db op).
Proof.
  intros Hl. destruct op as [l p | u n | u s n | oid st acc]; simpl.
  - apply (owned_mono db); [| |exact Hl].
    + unfold CreateUser. destruct (hash p); [|reflexivity].
      destruct (find_user_by_login db (ToLower lower l)); [reflexivity|].
      destruct (isSome (find_user_by_id db (users_seq db))); [reflexivity|].
      destruct (isSome (find_balance db (users_seq db))); reflexivity.
    + intros x Hx. destruct (CreateUser_balances lower hash db l p) as [E|[_ E]]; rewrite E;
        [exact Hx|]. rewrite map_app. apply in_or_app. left. exact Hx.
  - apply (owned_mono db); [| |exact Hl].
    + unfold CreateOrder. destruct (find_order_by_num db n) as [o|];
        [destruct (o_user_id o =? u); reflexivity|].
      destruct (find_user_by_id db u); reflexivity.
    + rewrite CreateOrder_balances. auto.
  - unfold Withdraw.
    destruct (current_of db u) as [c|] eqn:Hc; [|exact Hl].
    destruct (c <? s); [exact Hl|].
    destruct (find_withdrawal_by_num db n); [exact Hl|].
    unfold current_of in Hc.
    destruct (find_balance db u) as [bu|] eqn:Hb; [|discriminate].
    intros w Hin. simpl in *. rewrite debit_ids.
    apply in_app_or in Hin. destruct Hin as [Hin|[<-|[]]].
    + apply Hl. exact Hin.
    + simpl. exact (find_balance_in _ _ _ Hb).
  - apply (owned_mono db); [| |exact Hl].
    + unfold UpdateOrderStatus. destruct (find_order_by_id db oid); [|reflexivity].
      destruct (0 <? acc); reflexivity.
    + intros x Hx. destruct (UpdateOrderStatus_balances db oid st acc) as [E|[_ [uid E]]];
        rewrite E; [exact Hx|]. rewrite credit_ids. exact Hx.
Qed.

Lemma owned_fold (lower : Z -> Z) (hash : string -> option string) :
  forall ops db, withdrawals_owned db ->
  withdrawals_owned (fold_left (store_step lower hash) ops db).
Proof.
  induction ops as [|op ops IH]; intros db H; simpl; [exact H|].
  apply IH. apply owned_step. exact H.
Qed.

(** Whatever sequence of operations ran, every recorded withdrawal belongs
    to a user with a balance row: [Withdraw] inserts only after its
    [SELECT ... FOR UPDATE] found the user's balance row, and no operation
    removes a balance row. *)
Theorem run_store_withdrawals_owned (lower : Z -> Z) (hash : string -> option string)
    (ops : list StoreOp) :
  withdrawals_owned (run_store lower hash ops).
Proof.
  apply owned_fold. intros w [].
Qed.
